(** * umo type-schema extractor: a model of [scripts/extract-types.py]

    The script reflects over an imported Python package and emits a schema
    of its functions, classes and constants together with a coverage
    figure for type annotations.  This development embeds the script's
    functions over a model of the Python objects they inspect and proves
    the properties its specification states.

    Layout.  First the model: Python values as the script observes them,
    the resolver [parse_type_annotation], the symbol extractors, the
    module walker, the coverage arithmetic on binary64 numbers, and the
    package assembler with the process state it changes (output streams,
    raised exceptions).  Then the notions the statements use and a few
    example packages.  Then the properties, component by component. *)

From Stdlib Require Import ZArith String Ascii List Bool Floats Uint63 Lia.
From stdpp Require Import base strings list gmap pretty.

#[local] Set Warnings "-register-all,-inexact-float".

Open Scope Z_scope.

(** ** Strings *)

Module PyStr.

(** [s.startswith(p)] *)
Definition startswith (p s : string) : bool := String.prefix p s.

(** [p in s] for strings: [p] occurs somewhere in [s]. *)
Fixpoint contains (p s : string) : bool :=
  String.prefix p s ||
  match s with
  | EmptyString => false
  | String _ rest => contains p rest
  end.

(** [len(s)] *)
Definition len (s : string) : Z := Z.of_nat (String.length s).


End PyStr.

(** ** Type descriptors

    The script builds descriptors as dictionaries with a ["kind"] key and
    kind-specific fields.  Each dictionary shape is one constructor; the
    constructor arguments are the kind-specific fields, named as the
    script names them. *)

Inductive TypeDescriptor : Type :=
| KNone
| KAny
| KPrimitive (value : string)
| KList (elementType : TypeDescriptor)
| KDict (keyType valueType : TypeDescriptor)
| KTuple (elements : list TypeDescriptor)
| KOptional (innerType : TypeDescriptor)
| KClass (className : string).

(** [d['kind']] *)
Definition kind (d : TypeDescriptor) : string :=
  match d with
  | KNone => "none"
  | KAny => "any"
  | KPrimitive _ => "primitive"
  | KList _ => "list"
  | KDict _ _ => "dict"
  | KTuple _ => "tuple"
  | KOptional _ => "optional"
  | KClass _ => "class"
  end.


(** ** Python values used as annotations

    [parse_type_annotation] identifies a handful of objects by identity
    ([None], [type(None)], the signature's "empty" marker, the classes
    [str], [int], [float], [bool]), recognises strings, and looks at every
    other object only through [typing.get_origin], the [__origin__]
    attribute, [typing.get_args], [inspect.isclass] with [__name__], and
    [str()].  [PyObject] carries exactly those observations. *)

Inductive origin : Type :=
| OriginList       (* the class [list] *)
| OriginDict       (* the class [dict] *)
| OriginTuple      (* the class [tuple] *)
| OriginNoneType   (* [type(None)] *)
| OriginUnion      (* [typing.Union] *)
| OriginOther (name : string).

Inductive pyvalue : Type :=
| PyNone                      (* [None] *)
| PyNoneType                  (* [type(None)] *)
| PyEmpty                     (* [inspect.Parameter.empty], the same object as [inspect.Signature.empty] *)
| PyStr (s : string)          (* a [str] instance *)
| PyTypeStr                   (* the class [str] *)
| PyTypeInt                   (* the class [int] *)
| PyTypeFloat                 (* the class [float] *)
| PyTypeBool                  (* the class [bool] *)
| PyObject
    (get_origin : option origin)     (* [typing.get_origin(o)]; [None] is [None] *)
    (dunder_origin : option origin)  (* [o.__origin__] when [hasattr(o, '__origin__')] *)
    (get_args : list pyvalue)        (* [typing.get_args(o)] *)
    (class_name : option string)     (* [o.__name__] when [inspect.isclass(o)] *)
    (text : string).                 (* [str(o)] *)

Definition origin_is_list (o : option origin) : bool :=
  match o with Some OriginList => true | _ => false end.
Definition origin_is_dict (o : option origin) : bool :=
  match o with Some OriginDict => true | _ => false end.
Definition origin_is_tuple (o : option origin) : bool :=
  match o with Some OriginTuple => true | _ => false end.
Definition origin_is_NoneType (o : option origin) : bool :=
  match o with Some OriginNoneType => true | _ => false end.
Definition origin_is_Union (o : option origin) : bool :=
  match o with Some OriginUnion => true | _ => false end.

(** [a is type(None)] *)
Definition is_NoneType (a : pyvalue) : bool :=
  match a with PyNoneType => true | _ => false end.

(** The table of forward-reference names, [type_map.get(annotation, {"kind": "any"})]. *)
Definition type_map : gmap string TypeDescriptor :=
  <["str" := KPrimitive "str"]>
  (<["int" := KPrimitive "int"]>
  (<["float" := KPrimitive "float"]>
  (<["bool" := KPrimitive "bool"]>
  (<["None" := KNone]>
  (<["Any" := KAny]> ∅))))).

(** ** The resolver

    The union branch needs [parse_type_annotation(non_none_args[0])] on an
    element of a filtered list; to keep the recursion structural every
    argument is resolved alongside its "is [type(None)]" flag and the
    filter runs on the pairs.  [parse_type_annotation_union] below restates
    the branch in the script's own shape. *)

Fixpoint parse_type_annotation (annotation : pyvalue) : TypeDescriptor :=
  match annotation with
  | PyNone | PyNoneType => KNone
  | PyEmpty => KAny
  | PyStr s => default KAny (type_map !! s)
  | PyTypeStr => KPrimitive "str"
  | PyTypeInt => KPrimitive "int"
  | PyTypeFloat => KPrimitive "float"
  | PyTypeBool => KPrimitive "bool"
  | PyObject origin dunder args class_name text =>
      if origin_is_list origin || origin_is_list dunder then
        KList (match args with
               | a :: _ => parse_type_annotation a
               | [] => KAny
               end)
      else if origin_is_dict origin || origin_is_dict dunder then
        KDict (match args with
               | k :: _ => parse_type_annotation k
               | [] => KAny
               end)
              (match args with
               | _ :: v :: _ => parse_type_annotation v
               | _ => KAny
               end)
      else if origin_is_tuple origin then
        KTuple (map parse_type_annotation args)
      else if origin_is_NoneType origin then
        KNone
      else if origin_is_Union origin then
        let resolved := map (fun a => (is_NoneType a, parse_type_annotation a)) args in
        let non_none := List.filter (fun p => negb (fst p)) resolved in
        match non_none with
        | [p] => if existsb fst resolved then KOptional (snd p) else KAny
        | _ => KAny
        end
      else
        match class_name with
        | Some name => KClass name
        | None => if PyStr.contains "Any" text then KAny else KAny
        end
  end.



(** ** Callables, classes and modules as the extractor observes them *)

(** One entry of [sig.parameters]. *)
Record inspect_Parameter : Type := {
  param_name : string;
  param_annotation : pyvalue;
  (** [repr(param.default)], or [None] when [param.default] is
      [inspect.Parameter.empty] *)
  param_default : option string
}.

(** The result of [inspect.signature(func)]; [parameters] keeps the
    declaration order of the ordered mapping [sig.parameters]. *)
Record Signature : Type := {
  parameters : list inspect_Parameter;
  return_annotation : pyvalue
}.

Record pycallable : Type := {
  (** [inspect.isfunction(func)] *)
  fn_isfunction : bool;
  (** [inspect.signature(func)]; [None] when it raises [ValueError] or
      [TypeError] *)
  fn_signature : option Signature;
  (** [get_type_hints(func)]; [None] when it raises *)
  fn_type_hints : option (gmap string pyvalue);
  (** [inspect.getdoc(func)] *)
  fn_doc : option string;
  (** [inspect.iscoroutinefunction(func)] *)
  fn_iscoroutine : bool
}.

Record pyproperty : Type := {
  (** [attr.fget] when it is set; inside, [get_type_hints(attr.fget)], or
      [None] when that raises *)
  prop_fget : option (option (gmap string pyvalue));
  (** [attr.fset is None] *)
  prop_fset_is_None : bool;
  (** [attr.__doc__] *)
  prop_doc : option string
}.

(** [getattr(cls, name, None)], classified the way [extract_class_info]
    tells attributes apart. *)
Inductive clsattr : Type :=
| AttrCallable (c : pycallable)
| AttrProperty (p : pyproperty)
| AttrOther.

Record pyclass : Type := {
  cls_name : string;                      (* [cls.__name__] *)
  (** [dir(cls)] with the attribute bound to each name; [dir] lists names
      in sorted order, the order [inspect.getmembers] also returns *)
  cls_dir : list (string * clsattr);
  cls_doc : option string;                (* [inspect.getdoc(cls)] *)
  cls_bases : list string                 (* [base.__name__] of [cls.__bases__] *)
}.

(** What a module-level object is to [extract_module_info]. *)
Inductive objkind : Type :=
| ObjCallable (c : pycallable)   (* [callable(obj)], not a class *)
| ObjClass (c : pyclass)         (* [inspect.isclass(obj)] *)
| ObjData                        (* [not callable(obj)] *)
    (type_of : pyvalue)          (* [type(obj)] *)
    (repr : string)              (* [repr(obj)] *)
    (is_dict_or_list : bool).    (* [isinstance(obj, (dict, list))] *)

Record pyobj : Type := {
  (** [obj.__module__] when [hasattr(obj, '__module__')] *)
  obj_module : option string;
  obj_kind : objkind
}.

(** A directory on a package's [__path__]. *)
Record pkgdir : Type := {
  dir_exists : bool;               (* [path.exists()] *)
  dir_py_stems : list string       (* [py_file.stem] of [path.glob('*.py')] *)
}.

Record pymodule : Type := {
  mod_name : string;                           (* [module.__name__] *)
  mod_file : option string;                    (* [module.__file__] *)
  mod_all : option (list string);              (* [module.__all__] *)
  (** [dir(module)] with [getattr(module, name, None)]; [None] is [None] *)
  mod_dir : list (string * option pyobj);
  mod_doc : option string;                     (* [inspect.getdoc(module)] *)
  mod_version : option string;                 (* [module.__version__] *)
  mod_path : option (list pkgdir)              (* [module.__path__] *)
}.

(** ** Output records *)

Record ParameterDescriptor : Type := {
  pd_name : string;
  pd_type : TypeDescriptor;
  pd_optional : bool;
  pd_default : option string
}.

Record FunctionDescriptor : Type := {
  fd_name : string;
  fd_params : list ParameterDescriptor;
  fd_returnType : TypeDescriptor;
  fd_docstring : option string;
  fd_isAsync : bool;
  fd_isMethod : bool
}.

Record PropertyDescriptor : Type := {
  prd_name : string;
  prd_type : TypeDescriptor;
  prd_readonly : bool;
  prd_docstring : option string
}.

Record ClassDescriptor : Type := {
  cd_name : string;
  cd_constructor : option FunctionDescriptor;
  cd_methods : list FunctionDescriptor;
  cd_properties : list PropertyDescriptor;
  cd_docstring : option string;
  cd_bases : list string
}.

Record ConstantDescriptor : Type := {
  k_name : string;
  k_type : TypeDescriptor;
  k_value : option string
}.

Record ModuleDescriptor : Type := {
  md_name : string;
  md_path : string;
  md_functions : list FunctionDescriptor;
  md_classes : list ClassDescriptor;
  md_constants : list ConstantDescriptor;
  md_docstring : option string
}.

(** ** Symbol extractor *)

(** [hints.get(key, fallback)] *)
Definition hints_get (hints : gmap string pyvalue) (key : string) (fallback : pyvalue)
  : pyvalue :=
  default fallback (hints !! key).

(** The loop over [sig.parameters.items()]. *)
Fixpoint extract_params (hints : gmap string pyvalue) (ps : list inspect_Parameter)
  : list ParameterDescriptor :=
  match ps with
  | [] => []
  | param :: rest =>
      if String.eqb (param_name param) "self" then extract_params hints rest
      else
        let param_type := hints_get hints (param_name param) (param_annotation param) in
        let type_info := parse_type_annotation param_type in
        {| pd_name := param_name param;
           pd_type := type_info;
           pd_optional := bool_decide (is_Some (param_default param));
           pd_default := param_default param |}
        :: extract_params hints rest
  end.

Definition extract_function_info (func : pycallable) (name : string)
  : option FunctionDescriptor :=
  match fn_signature func with
  | None => None
  | Some sig =>
      let hints := default ∅ (fn_type_hints func) in
      let params := extract_params hints (parameters sig) in
      let return_type := hints_get hints "return" (return_annotation sig) in
      let return_info := parse_type_annotation return_type in
      Some {| fd_name := name;
              fd_params := params;
              fd_returnType := return_info;
              fd_docstring := fn_doc func;
              fd_isAsync := fn_iscoroutine func;
              fd_isMethod := false |}
  end.

(** [info['isMethod'] = True] *)
Definition set_isMethod (info : FunctionDescriptor) : FunctionDescriptor :=
  {| fd_name := fd_name info;
     fd_params := fd_params info;
     fd_returnType := fd_returnType info;
     fd_docstring := fd_docstring info;
     fd_isAsync := fd_isAsync info;
     fd_isMethod := true |}.

(** [extract_function_info(obj, name)] on a class attribute: anything that
    is not callable makes [inspect.signature] raise [TypeError]. *)
Definition extract_attr_info (attr : clsattr) (name : string) : option FunctionDescriptor :=
  match attr with
  | AttrCallable c => extract_function_info c name
  | _ => None
  end.

(** [getattr(cls, name)] when [hasattr(cls, name)] *)
Fixpoint cls_getattr (d : list (string * clsattr)) (name : string) : option clsattr :=
  match d with
  | [] => None
  | (n, a) :: rest => if String.eqb n name then Some a else cls_getattr rest name
  end.

(** [inspect.getmembers(cls, predicate=inspect.isfunction)] *)
Definition getmembers_isfunction (cls : pyclass) : list (string * pycallable) :=
  omap (fun na => match snd na with
                  | AttrCallable c => if fn_isfunction c then Some (fst na, c) else None
                  | _ => None
                  end) (cls_dir cls).

(** The "Extract methods" loop. *)
Fixpoint extract_methods (members : list (string * pycallable)) : list FunctionDescriptor :=
  match members with
  | [] => []
  | (name, method) :: rest =>
      if PyStr.startswith "_" name && negb (String.eqb name "__init__") then
        extract_methods rest
      else
        match extract_function_info method name with
        | Some method_info => set_isMethod method_info :: extract_methods rest
        | None => extract_methods rest
        end
  end.

(** The type of a property, from its getter's hints. *)
Definition property_type (attr : pyproperty) : TypeDescriptor :=
  match prop_fget attr with
  | Some (Some hints) =>
      match hints !! "return" with
      | Some r => parse_type_annotation r
      | None => KAny
      end
  | _ => KAny
  end.

(** The "Extract properties" loop over [dir(cls)]. *)
Fixpoint extract_properties (d : list (string * clsattr)) : list PropertyDescriptor :=
  match d with
  | [] => []
  | (name, attr) :: rest =>
      if PyStr.startswith "_" name then extract_properties rest
      else
        match attr with
        | AttrProperty p =>
            {| prd_name := name;
               prd_type := property_type p;
               prd_readonly := prop_fset_is_None p;
               prd_docstring := prop_doc p |}
            :: extract_properties rest
        | _ => extract_properties rest
        end
  end.

Definition extract_class_info (cls : pyclass) : ClassDescriptor :=
  let constructor :=
    match cls_getattr (cls_dir cls) "__init__" with
    | Some init =>
        match extract_attr_info init "__init__" with
        | Some init_info => Some (set_isMethod init_info)
        | None => None
        end
    | None => None
    end in
  let methods := extract_methods (getmembers_isfunction cls) in
  let properties := extract_properties (cls_dir cls) in
  {| cd_name := cls_name cls;
     cd_constructor := constructor;
     cd_methods := methods;
     cd_properties := properties;
     cd_docstring := cls_doc cls;
     cd_bases := List.filter (fun b => negb (String.eqb b "object")) (cls_bases cls) |}.

(** ** Module walker *)

(** [not hasattr(obj, '__module__') or obj.__module__ == module.__name__] *)
Definition is_defined_here (module : pymodule) (obj : pyobj) : bool :=
  match obj_module obj with
  | None => true
  | Some declared => String.eqb declared (mod_name module)
  end.

(** [set(getattr(module, '__all__', []))] *)
Definition module_all (module : pymodule) : gset string :=
  list_to_set (default [] (mod_all module)).

(** [repr(obj) if not isinstance(obj, (dict, list)) or len(repr(obj)) < 100 else None] *)
Definition constant_value (repr : string) (is_dict_or_list : bool) : option string :=
  if negb is_dict_or_list || (PyStr.len repr <? 100) then Some repr else None.

(** The three lists the walker fills. *)
Record walked : Type := {
  functions : list FunctionDescriptor;
  classes : list ClassDescriptor;
  constants : list ConstantDescriptor
}.

(** The inclusion test of the loop body: the name is public, the object is
    not [None], and it is defined here or exported through [__all__]. *)
Definition passes_filter (module : pymodule) (name : string) (o : option pyobj) : bool :=
  if PyStr.startswith "_" name then false
  else
    match o with
    | None => false
    | Some obj =>
        let is_in_all := bool_decide (name ∈ module_all module) in
        negb (negb (is_defined_here module obj) && negb is_in_all)
    end.

(** The classification of one included object, put in front of what the
    rest of the loop appends. *)
Definition classify (name : string) (obj : pyobj) (rest : walked) : walked :=
  match obj_kind obj with
  | ObjCallable c =>
      if fn_isfunction c then
        match extract_function_info c name with
        | Some func_info =>
            {| functions := func_info :: functions rest;
               classes := classes rest;
               constants := constants rest |}
        | None => rest
        end
      else rest
  | ObjClass cls =>
      {| functions := functions rest;
         classes := extract_class_info cls :: classes rest;
         constants := constants rest |}
  | ObjData type_of repr is_dict_or_list =>
      let const_type := parse_type_annotation type_of in
      {| functions := functions rest;
         classes := classes rest;
         constants := {| k_name := name;
                         k_type := const_type;
                         k_value := constant_value repr is_dict_or_list |}
                      :: constants rest |}
  end.

(** The loop over [dir(module)]. *)
Fixpoint walk (module : pymodule) (d : list (string * option pyobj)) : walked :=
  match d with
  | [] => {| functions := []; classes := []; constants := [] |}
  | (name, o) :: rest =>
      if passes_filter module name o then
        match o with
        | Some obj => classify name obj (walk module rest)
        | None => walk module rest
        end
      else walk module rest
  end.

Definition extract_module_info (module : pymodule) (module_name : string)
  : ModuleDescriptor :=
  let w := walk module (mod_dir module) in
  {| md_name := module_name;
     md_path := default "" (mod_file module);
     md_functions := functions w;
     md_classes := classes w;
     md_constants := constants w;
     md_docstring := mod_doc module |}.

(** ** Missing annotations *)

(** The entries one function or method contributes; [func_name] is the
    qualified name built by the caller. *)
Definition missing_of (func_name : string) (func : FunctionDescriptor) : list string :=
  (if String.eqb (kind (fd_returnType func)) "any"
   then [func_name +:+ " (return type)"] else [])
  ++ flat_map (fun param =>
                 if String.eqb (kind (pd_type param)) "any"
                 then [func_name +:+ "." +:+ pd_name param] else [])
              (fd_params func).

Definition missing_of_module (module : ModuleDescriptor) : list string :=
  let module_name := md_name module in
  flat_map (fun func => missing_of (module_name +:+ "." +:+ fd_name func) func)
           (md_functions module)
  ++ flat_map (fun cls =>
                 let cls_name := module_name +:+ "." +:+ cd_name cls in
                 flat_map (fun method =>
                             missing_of (cls_name +:+ "." +:+ fd_name method) method)
                          (cd_methods cls))
              (md_classes module).

(** [count_missing_annotations(schema)], on [schema['modules']]. *)
Definition count_missing_annotations (modules : list ModuleDescriptor) : list string :=
  flat_map missing_of_module modules.

(** ** Numbers

    [typeAnnotationCoverage] is the [int] 100 or a [float].  Floats are
    IEEE binary64 values, computed with the primitive operations. *)

Inductive pynumber : Type :=
| PyInt (n : Z)
| PyFloat (x : float).

Module PyNum.

(** [float(n)], exact for [|n| < 2^53]. *)
Definition float_of_Z (n : Z) : float :=
  if n <? 0 then PrimFloat.opp (PrimFloat.of_uint63 (Uint63.of_Z (- n)))
  else PrimFloat.of_uint63 (Uint63.of_Z n).

(** [a / b] on integers: the binary64 number nearest to the quotient
    (operands below [2^53], which [float_of_Z] converts exactly). *)
Definition truediv (a b : Z) : float :=
  PrimFloat.div (float_of_Z a) (float_of_Z b).

(** [x * n] for a float and an integer. *)
Definition mul_int (x : float) (n : Z) : float :=
  PrimFloat.mul x (float_of_Z n).

(** The integer nearest to [p / q] for [0 < q], ties to the even one. *)
Definition round_half_even (p q : Z) : Z :=
  let d := p / q in
  let r := p mod q in
  if 2 * r <? q then d
  else if q <? 2 * r then d + 1
  else if Z.even d then d else d + 1.

(** [round(x, 2)] on a float: [x] is converted to the decimal with two
    fractional digits nearest to its exact value (ties to even), and
    that decimal [n / 100] is read back as the nearest binary64 number
    ([n] below [2^53], so for [|x| < 2^46]).  Zeros, infinities, NaN and
    the integers [m * 2^e] with [0 <= e] come back unchanged. *)
Definition round2_float (x : float) : float :=
  match Prim2SF x with
  | S754_finite s m e =>
      if 0 <=? e then x
      else
        let n := round_half_even (Z.pos m * 100) (2 ^ (- e)) in
        let r := PrimFloat.div (float_of_Z n) (float_of_Z 100) in
        if s then PrimFloat.opp r else r
  | _ => x
  end.

(** [round(v, 2)]; an [int] is returned as it is. *)
Definition round2 (v : pynumber) : pynumber :=
  match v with
  | PyInt n => PyInt n
  | PyFloat x => PyFloat (round2_float x)
  end.

(** [v < n] against an integer. *)
Definition ltb_int (v : pynumber) (n : Z) : bool :=
  match v with
  | PyInt k => k <? n
  | PyFloat x => PrimFloat.ltb x (float_of_Z n)
  end.

End PyNum.

(** ** Coverage *)

(** [1 + len(func.get('params', []))] *)
Definition slots (func : FunctionDescriptor) : Z :=
  1 + Z.of_nat (length (fd_params func)).

(** The accumulation of [total_items] over the modules, in the order of
    the three nested loops. *)
Definition add_functions (total_items : Z) (funcs : list FunctionDescriptor) : Z :=
  fold_left (fun t func => t + slots func) funcs total_items.

Definition add_classes (total_items : Z) (clss : list ClassDescriptor) : Z :=
  fold_left (fun t cls => add_functions t (cd_methods cls)) clss total_items.

Definition total_items_of (modules : list ModuleDescriptor) : Z :=
  fold_left (fun t module => add_classes (add_functions t (md_functions module))
                                         (md_classes module))
            modules 0.

(** [((total_items - len(missing)) / total_items * 100) if total_items > 0 else 100] *)
Definition coverage_of (total_items : Z) (missing : list string) : pynumber :=
  if 0 <? total_items then
    PyFloat (PyNum.mul_int
               (PyNum.truediv (total_items - Z.of_nat (length missing)) total_items)
               100)
  else PyInt 100.

(** [schema["typeAnnotationCoverage"]] as computed from the module list. *)
Definition typeAnnotationCoverage_of (modules : list ModuleDescriptor) : pynumber :=
  let missing := count_missing_annotations modules in
  PyNum.round2 (coverage_of (total_items_of modules) missing).

(** ** Process state, exceptions and the import machinery

    [extract_package_types] changes [sys.path], swaps [sys.stdout] and
    [sys.stderr] around each submodule import, and runs module code that
    may raise.  [process] holds the interpreter state it touches, and a
    computation of type [M A] takes a state and ends in a new state, either
    returning a value or raising an exception. *)

Inductive stream : Type :=
| Handle (fd : nat)          (* a stream the script did not make *)
| StringIO (serial : nat).   (* a buffer made by [io.StringIO()] *)

Record process : Type := {
  sys_path : list string;
  sys_stdout : stream;
  sys_stderr : stream;
  (** number of [io.StringIO()] objects made so far; names the next one *)
  buffers_made : nat
}.

(** The classes the script's [except] clauses tell apart. *)
Inductive exc_class : Type :=
| ImportError          (* [ImportError] and its subclasses, e.g. [ModuleNotFoundError] *)
| OtherException       (* any other subclass of [Exception] *)
| SystemExit           (* raised by [sys.exit()] *)
| OtherBaseException.  (* [KeyboardInterrupt], [GeneratorExit], ... *)

Record pyexc : Type := {
  exc_type : exc_class;
  exc_str : string       (* [str(e)] *)
}.

(** [isinstance(e, ImportError)] *)
Definition is_ImportError (e : pyexc) : bool :=
  match exc_type e with ImportError => true | _ => false end.

(** [isinstance(e, Exception)] *)
Definition is_Exception (e : pyexc) : bool :=
  match exc_type e with ImportError | OtherException => true | _ => false end.

(** [isinstance(e, SystemExit)] *)
Definition is_SystemExit (e : pyexc) : bool :=
  match exc_type e with SystemExit => true | _ => false end.

Inductive outcome (A : Type) : Type :=
| Returned (a : A)
| Raised (e : pyexc).
Arguments Returned {A} a.
Arguments Raised {A} e.

Definition M (A : Type) : Type := process -> process * outcome A.

#[global] Instance M_ret : MRet M := fun A a st => (st, Returned a).

#[global] Instance M_bind : MBind M := fun A B k m st =>
  match m st with
  | (st', Returned a) => k a st'
  | (st', Raised e) => (st', Raised e)
  end.

(** [try: body / except <caught>: handler] *)
Definition try_except {A} (body : M A) (caught : pyexc -> bool) (handler : pyexc -> M A)
  : M A :=
  fun st =>
    match body st with
    | (st', Returned a) => (st', Returned a)
    | (st', Raised e) => if caught e then handler e st' else (st', Raised e)
    end.

(** [try: body / finally: final] *)
Definition try_finally {A} (body : M A) (final : M unit) : M A :=
  fun st =>
    match body st with
    | (st', r) =>
        match final st' with
        | (st'', Returned _) => (st'', r)
        | (st'', Raised e) => (st'', Raised e)
        end
    end.

(** [sys.stdout, sys.stderr] *)
Definition get_streams : M (stream * stream) :=
  fun st => (st, Returned (sys_stdout st, sys_stderr st)).

(** [sys.stdout, sys.stderr = out, err] *)
Definition set_streams (out err : stream) : M unit :=
  fun st => ({| sys_path := sys_path st;
                sys_stdout := out;
                sys_stderr := err;
                buffers_made := buffers_made st |}, Returned tt).

(** [io.StringIO()] *)
Definition new_StringIO : M stream :=
  fun st => ({| sys_path := sys_path st;
                sys_stdout := sys_stdout st;
                sys_stderr := sys_stderr st;
                buffers_made := S (buffers_made st) |},
             Returned (StringIO (buffers_made st))).

(** [if p not in sys.path: sys.path.insert(0, p)] *)
Definition add_to_sys_path (p : string) : M unit :=
  fun st =>
    if bool_decide (p ∈ sys_path st) then (st, Returned tt)
    else ({| sys_path := p :: sys_path st;
             sys_stdout := sys_stdout st;
             sys_stderr := sys_stderr st;
             buffers_made := buffers_made st |}, Returned tt).

(** What the interpreter and the installation provide. *)
Record environment : Type := {
  (** [importlib.import_module(name)]: runs the module's code, which may
      change the process state in any way, and returns the module or
      raises *)
  import_module : string -> M pymodule;
  (** [importlib.metadata.version(name)]; [None] when it raises *)
  metadata_version : string -> option string;
  (** [datetime.utcnow().isoformat()] *)
  utcnow_isoformat : string
}.

(** ** Package assembler *)

Record PackageSchema : Type := {
  package : string;
  version : string;
  modules : list ModuleDescriptor;
  extractedAt : string;
  missingAnnotations : list string;
  typeAnnotationCoverage : pynumber
}.

(** The two dictionaries [extract_package_types] can return. *)
Inductive extraction : Type :=
| ErrorDict (error : string)
| Schema (schema : PackageSchema).

(** The keys of the returned dictionary. *)
Definition keys (r : extraction) : list string :=
  match r with
  | ErrorDict _ => ["error"]
  | Schema _ => ["package"; "version"; "modules"; "extractedAt";
                 "missingAnnotations"; "typeAnnotationCoverage"]
  end.

Section Assembler.

Variable env : environment.

(** The version chain: [__version__], then the metadata of
    [pip_name or package_name], then of [package_name], then
    ['unknown']. *)
Definition package_version (main_module : pymodule) (package_name : string)
    (pip_name : option string) : string :=
  match mod_version main_module with
  | Some v => v
  | None =>
      let first :=
        match pip_name with
        | Some p => if String.eqb p "" then package_name else p
        | None => package_name
        end in
      match metadata_version env first with
      | Some v => v
      | None =>
          match metadata_version env package_name with
          | Some v => v
          | None => "unknown"
          end
      end
  end.

(** The body of the loop over [path.glob('*.py')] past the name test:
    the guarded import of one submodule and the walk of its contents. *)
Definition try_submodule (submodule_name : string) (modules : list ModuleDescriptor)
  : M (list ModuleDescriptor) :=
  try_except
    ('(old_stdout, old_stderr) ← get_streams;
     buffer ← new_StringIO;
     _ ← set_streams buffer buffer;
     submodule ← try_finally (import_module env submodule_name)
                             (set_streams old_stdout old_stderr);
     let sub_info := extract_module_info submodule submodule_name in
     if negb (bool_decide (md_functions sub_info = []))
        || negb (bool_decide (md_classes sub_info = []))
     then mret (modules ++ [sub_info])
     else mret modules)
    (fun e => is_Exception e || is_SystemExit e)
    (fun _ => mret modules).

(** [for py_file in path.glob('*.py')] *)
Fixpoint for_py_files (package_name : string) (stems : list string)
    (modules : list ModuleDescriptor) : M (list ModuleDescriptor) :=
  match stems with
  | [] => mret modules
  | stem :: rest =>
      if PyStr.startswith "_" (stem +:+ ".py") then
        for_py_files package_name rest modules
      else
        let submodule_name := package_name +:+ "." +:+ stem in
        modules' ← try_submodule submodule_name modules;
        for_py_files package_name rest modules'
  end.

(** [for path in package_path] *)
Fixpoint for_paths (package_name : string) (paths : list pkgdir)
    (modules : list ModuleDescriptor) : M (list ModuleDescriptor) :=
  match paths with
  | [] => mret modules
  | path :: rest =>
      if dir_exists path then
        modules' ← for_py_files package_name (dir_py_stems path) modules;
        for_paths package_name rest modules'
      else for_paths package_name rest modules
  end.

(** The schema built from the final module list. *)
Definition make_schema (package_name version : string)
    (modules : list ModuleDescriptor) : PackageSchema :=
  {| package := package_name;
     version := version;
     modules := modules;
     extractedAt := utcnow_isoformat env +:+ "Z";
     missingAnnotations := count_missing_annotations modules;
     typeAnnotationCoverage := typeAnnotationCoverage_of modules |}.

Definition extract_package_types (package_name site_packages_path : string)
    (pip_name : option string) : M extraction :=
  _ ← add_to_sys_path site_packages_path;
  imported ← try_except
               (main_module ← import_module env package_name;
                mret (inr main_module))
               is_ImportError
               (fun e => mret (inl ("Failed to import " +:+ package_name
                                      +:+ ": " +:+ exc_str e)));
  match imported with
  | inl message => mret (ErrorDict message)
  | inr main_module =>
      let version := package_version main_module package_name pip_name in
      let main_info := extract_module_info main_module package_name in
      modules ← for_paths package_name (default [] (mod_path main_module)) [main_info];
      mret (Schema (make_schema package_name version modules))
  end.

End Assembler.

(** * Notions used in the statements *)

(** ** Objects of the [typing] module

    A subscripted alias reports its origin through [get_origin] and
    [__origin__] alike, is not a class, and its arguments are what
    [get_args] returns. *)

Definition alias (o : origin) (args : list pyvalue) (text : string) : pyvalue :=
  PyObject (Some o) (Some o) args None text.


Definition typing_Dict (k v : pyvalue) : pyvalue :=
  alias OriginDict [k; v] "typing.Dict[...]".

Definition typing_Tuple (ts : list pyvalue) : pyvalue :=
  alias OriginTuple ts "typing.Tuple[...]".

(** [typing.Union[...]] with the given [get_args]; [typing] has already
    flattened nested unions and dropped duplicates. *)
Definition typing_Union (args : list pyvalue) : pyvalue :=
  alias OriginUnion args "typing.Union[...]".

(** [typing.Optional[t]] for a [t] that is neither [None] nor a union. *)
Definition typing_Optional (t : pyvalue) : pyvalue :=
  alias OriginUnion [t; PyNoneType] "typing.Optional[...]".




(** ** Parameters *)

(** [param_name != 'self'] *)
Definition not_self (param : inspect_Parameter) : bool :=
  negb (String.eqb (param_name param) "self").

(** The descriptor built for one parameter that is kept. *)
Definition describe_param (hints : gmap string pyvalue) (param : inspect_Parameter)
  : ParameterDescriptor :=
  {| pd_name := param_name param;
     pd_type := parse_type_annotation
                  (hints_get hints (param_name param) (param_annotation param));
     pd_optional := bool_decide (is_Some (param_default param));
     pd_default := param_default param |}.

(** The parameter names of an extracted descriptor. *)
Definition described_names (r : option FunctionDescriptor) : option (list string) :=
  match r with
  | Some d => Some (map pd_name (fd_params d))
  | None => None
  end.

(** ** Slots *)

(** Every function of a module followed by every method of its classes. *)
Definition callables_of (module : ModuleDescriptor) : list FunctionDescriptor :=
  md_functions module ++ flat_map cd_methods (md_classes module).

(** Every function and method across the modules of a schema. *)
Definition all_callables (modules : list ModuleDescriptor) : list FunctionDescriptor :=
  flat_map callables_of modules.

Definition sumZ (l : list Z) : Z := foldr Z.add 0 l.

(** The total the specification describes: over every function and
    method, one slot for the return plus one per parameter. *)
Definition slot_total (modules : list ModuleDescriptor) : Z :=
  sumZ (map (fun func => 1 + Z.of_nat (length (fd_params func)))
            (all_callables modules)).

(** ** Walks *)



(** ** Process states *)

(** The state in which a submodule is imported: both streams are one
    fresh buffer. *)
Definition redirect (st : process) : process :=
  {| sys_path := sys_path st;
     sys_stdout := StringIO (buffers_made st);
     sys_stderr := StringIO (buffers_made st);
     buffers_made := S (buffers_made st) |}.

(** The state [st1] the import left, with the streams of [st] put back. *)
Definition restore (st st1 : process) : process :=
  {| sys_path := sys_path st1;
     sys_stdout := sys_stdout st;
     sys_stderr := sys_stderr st;
     buffers_made := buffers_made st1 |}.

(** [if sub_info['functions'] or sub_info['classes']: modules.append(sub_info)] *)
Definition append_if_api (modules : list ModuleDescriptor) (sub_info : ModuleDescriptor)
  : list ModuleDescriptor :=
  if negb (bool_decide (md_functions sub_info = []))
     || negb (bool_decide (md_classes sub_info = []))
  then modules ++ [sub_info] else modules.

(** [st'] has the output streams of [st]. *)
Definition same_streams (st st' : process) : Prop :=
  sys_stdout st' = sys_stdout st /\ sys_stderr st' = sys_stderr st.


(** ** Binary64 rounding *)

(** The position of an exact value inside its rounding interval is the
    midpoint or above. *)
Definition half_or_more (lx : location) : Prop :=
  lx = loc_Inexact Eq \/ lx = loc_Inexact Gt.

(** Checking a property of [0 .. n-1] by counting upwards. *)
Definition check_next (check : Z -> bool) (st : Z * bool) : Z * bool :=
  (fst st + 1, snd st && check (fst st)).

Definition check_below (check : Z -> bool) (n : positive) : bool :=
  snd (Pos.iter (check_next check) (0, true) n).

(** [n / 100 < 100] as evaluated on floats, for [n] hundredths. *)
Definition hundredth_below_100 (n : Z) : bool :=
  PrimFloat.ltb (PrimFloat.div (PyNum.float_of_Z n) (PyNum.float_of_Z 100))
                (PyNum.float_of_Z 100).

(** * Example packages *)

(** A function or method [def f(<names>)] without annotations or
    defaults. *)
Definition plain_param (name : string) : inspect_Parameter :=
  {| param_name := name; param_annotation := PyEmpty; param_default := None |}.

Definition plain_function (names : list string) : pycallable :=
  {| fn_isfunction := true;
     fn_signature := Some {| parameters := map plain_param names;
                             return_annotation := PyEmpty |};
     fn_type_hints := Some ∅;
     fn_doc := None;
     fn_iscoroutine := false |}.

(** A module-level function whose [__module__] is [module_name]. *)
Definition defined_here (module_name : string) (names : list string) : pyobj :=
  {| obj_module := Some module_name; obj_kind := ObjCallable (plain_function names) |}.

(** [def f(x: int, y: "str" = "a") -> Optional[float]: ...]; the hints
    resolve the forward reference ["str"] to the class [str]. *)
Definition scenario_f : pycallable :=
  {| fn_isfunction := true;
     fn_signature :=
       Some {| parameters :=
                 [ {| param_name := "x"; param_annotation := PyTypeInt;
                      param_default := None |};
                   {| param_name := "y"; param_annotation := PyStr "str";
                      param_default := Some "'a'" |} ];
               return_annotation := typing_Optional PyTypeFloat |};
     fn_type_hints :=
       Some (<["x" := PyTypeInt]>
             (<["y" := PyTypeStr]>
             (<["return" := typing_Optional PyTypeFloat]> ∅)));
     fn_doc := None;
     fn_iscoroutine := false |}.

(** [class Widget: def __init__(self, size): ...] with nothing annotated. *)
Definition Widget_init : pycallable := plain_function ["self"; "size"].

Definition Widget : pyclass :=
  {| cls_name := "Widget";
     cls_dir := [("__init__", AttrCallable Widget_init)];
     cls_doc := None;
     cls_bases := ["object"] |}.

(** The descriptor of a module [shop] that holds only [Widget]. *)
Definition shop : ModuleDescriptor :=
  {| md_name := "shop";
     md_path := "";
     md_functions := [];
     md_classes := [extract_class_info Widget];
     md_constants := [];
     md_docstring := None |}.



(** A module that defines [helper] itself and imports [join] from
    [os.path] without exporting it. *)
Definition tools : pymodule :=
  {| mod_name := "pkg.tools";
     mod_file := Some "pkg/tools.py";
     mod_all := None;
     mod_dir := [("helper", Some (defined_here "pkg.tools" ["x"]));
                 ("join", Some (defined_here "posixpath" ["a"]))];
     mod_doc := None;
     mod_version := None;
     mod_path := None |}.



(** A small installation: the package [pkg] with the files [bad.py],
    which points [sys.stdout] elsewhere and then calls [sys.exit(1)], and
    [good.py], which defines one function; [broken] raises [ValueError]
    when imported, and no other name can be found. *)
Definition pkg_main : pymodule :=
  {| mod_name := "pkg";
     mod_file := Some "site/pkg/__init__.py";
     mod_all := None;
     mod_dir := [];
     mod_doc := None;
     mod_version := Some "1.0";
     mod_path := Some [ {| dir_exists := true;
                           dir_py_stems := ["__init__"; "bad"; "good"] |} ] |}.

Definition pkg_good : pymodule :=
  {| mod_name := "pkg.good";
     mod_file := Some "site/pkg/good.py";
     mod_all := None;
     mod_dir := [("run", Some (defined_here "pkg.good" ["job"]))];
     mod_doc := None;
     mod_version := None;
     mod_path := None |}.

(** The state after [sys.stdout = <stream 9>]. *)
Definition hijack_stdout (st : process) : process :=
  {| sys_path := sys_path st;
     sys_stdout := Handle 9;
     sys_stderr := sys_stderr st;
     buffers_made := buffers_made st |}.

Definition demo_import (name : string) : M pymodule :=
  fun st =>
    if String.eqb name "pkg" then (st, Returned pkg_main)
    else if String.eqb name "pkg.good" then (st, Returned pkg_good)
    else if String.eqb name "pkg.bad" then
      (hijack_stdout st, Raised {| exc_type := SystemExit; exc_str := "1" |})
    else if String.eqb name "broken" then
      (st, Raised {| exc_type := OtherException; exc_str := "bad configuration" |})
    else
      (st, Raised {| exc_type := ImportError;
                     exc_str := "No module named '" +:+ name +:+ "'" |}).

Definition demo_env : environment :=
  {| import_module := demo_import;
     metadata_version := fun _ => None;
     utcnow_isoformat := "2024-01-01T00:00:00" |}.

Definition console : process :=
  {| sys_path := []; sys_stdout := Handle 1; sys_stderr := Handle 2; buffers_made := 0 |}.

(** A module of 4000 functions of nine parameters each, every slot
    annotated with [int] except the return of the first function. *)
Definition nine_params : list inspect_Parameter :=
  map (fun name => {| param_name := name; param_annotation := PyTypeInt;
                      param_default := None |})
      ["a"; "b"; "c"; "d"; "e"; "f"; "g"; "h"; "i"].

Definition nine_hints : gmap string pyvalue :=
  list_to_map (map (fun name => (name, PyTypeInt))
                   ["a"; "b"; "c"; "d"; "e"; "f"; "g"; "h"; "i"]).

Definition typed_function (hints : gmap string pyvalue) : pycallable :=
  {| fn_isfunction := true;
     fn_signature := Some {| parameters := nine_params; return_annotation := PyEmpty |};
     fn_type_hints := Some hints;
     fn_doc := None;
     fn_iscoroutine := false |}.

Definition big_dir (n : nat) : list (string * option pyobj) :=
  ("first", Some {| obj_module := Some "big";
                    obj_kind := ObjCallable (typed_function nine_hints) |})
  :: map (fun i => ("fn" +:+ pretty i,
                    Some {| obj_module := Some "big";
                            obj_kind := ObjCallable
                                          (typed_function
                                             (<["return" := PyTypeInt]> nine_hints)) |}))
         (seq 0 n).

Definition big : pymodule :=
  {| mod_name := "big";
     mod_file := Some "site/big.py";
     mod_all := None;
     mod_dir := big_dir 3999;
     mod_doc := None;
     mod_version := Some "2.0";
     mod_path := None |}.

Definition big_env : environment :=
  {| import_module := fun name st => (st, Returned big);
     metadata_version := fun _ => None;
     utcnow_isoformat := "2024-01-01T00:00:00" |}.

(** * Properties *)

(** ** Resolver *)















(** [Union[int, str]] and [Union[int, str, None]] resolve to any. *)
Example union_two_members :
  parse_type_annotation (typing_Union [PyTypeInt; PyTypeStr]) = KAny
  /\ parse_type_annotation (typing_Union [PyTypeInt; PyTypeStr; PyNoneType]) = KAny.
Proof. split; reflexivity. Qed.





(** ** Symbol extractor *)

Lemma extract_params_filter (hints : gmap string pyvalue) (ps : list inspect_Parameter) :
  extract_params hints ps = map (describe_param hints) (List.filter not_self ps).
Proof.
  induction ps as [|param ps IH]; [reflexivity|].
  cbn [extract_params List.filter]. unfold not_self at 1.
  destruct (String.eqb (param_name param) "self"); cbn [negb map].
  - exact IH.
  - rewrite IH. reflexivity.
Qed.

(** C9: the parameters of the extracted descriptor are the signature's
    parameters whose name is not ['self'], in signature order, wherever
    the name occurs and whether or not the callable is a method: a free
    function [f(a, self)] loses [self]; methods [m(cls, x)] and [m(this)],
    also when extracted through their class, keep every parameter. *)
Theorem self_excluded_by_name :
  (forall (func : pycallable) (name : string),
      extract_function_info func name
      = match fn_signature func with
        | None => None
        | Some sig =>
            let hints := default ∅ (fn_type_hints func) in
            Some {| fd_name := name;
                    fd_params := map (describe_param hints)
                                     (List.filter not_self (parameters sig));
                    fd_returnType := parse_type_annotation
                                       (hints_get hints "return" (return_annotation sig));
                    fd_docstring := fn_doc func;
                    fd_isAsync := fn_iscoroutine func;
                    fd_isMethod := false |}
        end)
  /\ described_names (extract_function_info (plain_function ["a"; "self"]) "f")
     = Some ["a"]
  /\ described_names (extract_function_info (plain_function ["self"; "x"]) "m")
     = Some ["x"]
  /\ described_names (extract_function_info (plain_function ["cls"; "x"]) "m")
     = Some ["cls"; "x"]
  /\ map (fun d => map pd_name (fd_params d))
         (extract_methods [("m", plain_function ["this"])])
     = [["this"]].
Proof.
  split; [|repeat split].
  intros func name. unfold extract_function_info.
  destruct (fn_signature func) as [sig|]; [|reflexivity].
  cbv zeta. rewrite extract_params_filter. reflexivity.
Qed.

(** The specification's scenario A. *)
Example scenario_A :
  extract_function_info scenario_f "f"
  = Some {| fd_name := "f";
            fd_params :=
              [ {| pd_name := "x"; pd_type := KPrimitive "int";
                   pd_optional := false; pd_default := None |};
                {| pd_name := "y"; pd_type := KPrimitive "str";
                   pd_optional := true; pd_default := Some "'a'" |} ];
            fd_returnType := KOptional (KPrimitive "float");
            fd_docstring := None;
            fd_isAsync := false;
            fd_isMethod := false |}.
Proof. reflexivity. Qed.

(** ** Classes *)

Lemma cls_getattr_Some (d : list (string * clsattr)) (name : string) (a : clsattr) :
  cls_getattr d name = Some a -> (name, a) ∈ d.
Proof.
  induction d as [|[n b] d IH]; cbn; [discriminate|].
  destruct (String.eqb n name) eqn:E.
  - intros [= ->]. apply String.eqb_eq in E. subst n. left.
  - intros H. right. now apply IH.
Qed.

Lemma getmembers_isfunction_In (cls : pyclass) (name : string) (c : pycallable) :
  (name, AttrCallable c) ∈ cls_dir cls -> fn_isfunction c = true ->
  (name, c) ∈ getmembers_isfunction cls.
Proof.
  intros Hin Hf. unfold getmembers_isfunction.
  apply list_elem_of_omap. exists (name, AttrCallable c).
  split; [exact Hin|]. cbn. rewrite Hf. reflexivity.
Qed.

Lemma extract_methods_In (members : list (string * pycallable)) (name : string)
    (c : pycallable) (d : FunctionDescriptor) :
  (name, c) ∈ members ->
  PyStr.startswith "_" name && negb (String.eqb name "__init__") = false ->
  extract_function_info c name = Some d ->
  set_isMethod d ∈ extract_methods members.
Proof.
  intros Hin Hpub Hd.
  induction members as [|[n m] members IH]; [now apply not_elem_of_nil in Hin|].
  apply elem_of_cons in Hin as [[= <- <-]|Hin].
  - cbn [extract_methods]. rewrite Hpub, Hd. left.
  - cbn [extract_methods].
    destruct (PyStr.startswith "_" n && negb (String.eqb n "__init__")); [now apply IH|].
    destruct (extract_function_info m n); [right|]; now apply IH.
Qed.

(** ** Totals *)

Lemma sumZ_app (l1 l2 : list Z) : sumZ (l1 ++ l2) = sumZ l1 + sumZ l2.
Proof. unfold sumZ. induction l1 as [|x l1 IH]; cbn; lia. Qed.

Lemma sumZ_cons (x : Z) (l : list Z) : sumZ (x :: l) = x + sumZ l.
Proof. reflexivity. Qed.

Lemma add_functions_sum (t : Z) (funcs : list FunctionDescriptor) :
  add_functions t funcs = t + sumZ (map slots funcs).
Proof.
  unfold add_functions. revert t.
  induction funcs as [|f funcs IH]; intros t; cbn [fold_left map].
  - cbn. lia.
  - rewrite IH, sumZ_cons. lia.
Qed.

Lemma add_classes_sum (t : Z) (clss : list ClassDescriptor) :
  add_classes t clss = t + sumZ (map slots (flat_map cd_methods clss)).
Proof.
  unfold add_classes. revert t.
  induction clss as [|c clss IH]; intros t; cbn [fold_left flat_map].
  - cbn. lia.
  - rewrite IH, add_functions_sum, map_app, sumZ_app. lia.
Qed.

Lemma total_items_of_from (t : Z) (modules : list ModuleDescriptor) :
  fold_left (fun t module => add_classes (add_functions t (md_functions module))
                                         (md_classes module))
            modules t
  = t + slot_total modules.
Proof.
  unfold slot_total, all_callables. revert t.
  induction modules as [|m modules IH]; intros t; cbn [fold_left flat_map].
  - cbn. lia.
  - rewrite IH, add_classes_sum, add_functions_sum.
    unfold callables_of. rewrite !map_app, !sumZ_app.
    fold slots. lia.
Qed.

(** The three nested loops compute the specification's total. *)
Lemma total_items_of_slot_total (modules : list ModuleDescriptor) :
  total_items_of modules = slot_total modules.
Proof. unfold total_items_of. rewrite total_items_of_from. lia. Qed.

Lemma sumZ_nonneg (l : list Z) : Forall (fun x => 0 <= x) l -> 0 <= sumZ l.
Proof. induction 1; rewrite ?sumZ_cons; cbn; lia. Qed.

Lemma sumZ_elem_le (l : list Z) (x : Z) :
  Forall (fun y => 0 <= y) l -> x ∈ l -> x <= sumZ l.
Proof.
  induction 1 as [|y l Hy Hl IH]; intros Hin; [now apply not_elem_of_nil in Hin|].
  apply sumZ_nonneg in Hl as Hs.
  apply elem_of_cons in Hin as [->|Hin]; rewrite sumZ_cons; [lia|].
  specialize (IH Hin). lia.
Qed.

Lemma slots_pos (func : FunctionDescriptor) : 0 < slots func.
Proof. unfold slots. lia. Qed.

Lemma slots_le_slot_total (modules : list ModuleDescriptor) (func : FunctionDescriptor) :
  func ∈ all_callables modules -> slots func <= slot_total modules.
Proof.
  intros Hin. unfold slot_total. apply sumZ_elem_le.
  - apply Forall_forall. intros x Hx. apply list_elem_of_In in Hx.
    apply in_map_iff in Hx as (f & <- & _). lia.
  - apply list_elem_of_In, in_map_iff. exists func.
    split; [reflexivity | now apply list_elem_of_In].
Qed.

Lemma method_in_all_callables (modules : list ModuleDescriptor)
    (module : ModuleDescriptor) (cls : ClassDescriptor) (method : FunctionDescriptor) :
  module ∈ modules -> cls ∈ md_classes module -> method ∈ cd_methods cls ->
  method ∈ all_callables modules.
Proof.
  intros Hm Hc Hf. unfold all_callables.
  apply list_elem_of_In, in_flat_map. exists module.
  split; [now apply list_elem_of_In|].
  unfold callables_of. apply in_or_app. right.
  apply in_flat_map. exists cls. split; now apply list_elem_of_In.
Qed.

Lemma method_missing_counted (modules : list ModuleDescriptor)
    (module : ModuleDescriptor) (cls : ClassDescriptor) (method : FunctionDescriptor)
    (entry : string) :
  module ∈ modules -> cls ∈ md_classes module -> method ∈ cd_methods cls ->
  entry ∈ missing_of ((md_name module +:+ "." +:+ cd_name cls) +:+ "." +:+ fd_name method)
                     method ->
  entry ∈ count_missing_annotations modules.
Proof.
  intros Hm Hc Hf He. unfold count_missing_annotations.
  apply list_elem_of_In, in_flat_map. exists module.
  split; [now apply list_elem_of_In|].
  unfold missing_of_module. apply in_or_app. right.
  apply in_flat_map. exists cls. split; [now apply list_elem_of_In|].
  apply in_flat_map. exists method. split; now apply list_elem_of_In.
Qed.

(** C10: when a class's [__init__] is a plain function with an
    introspectable signature, its descriptor is the [constructor] field
    and also an entry of [methods]; through [methods] its slots enter the
    total behind the coverage figure and its missing annotations enter
    [missingAnnotations] of any schema holding the class. *)
Theorem constructor_listed_twice (cls : pyclass) (init : pycallable) (sig : Signature) :
  cls_getattr (cls_dir cls) "__init__" = Some (AttrCallable init) ->
  fn_isfunction init = true ->
  fn_signature init = Some sig ->
  exists ctor,
    cd_constructor (extract_class_info cls) = Some ctor
    /\ ctor ∈ cd_methods (extract_class_info cls)
    /\ fd_name ctor = "__init__"
    /\ forall modules module,
         module ∈ modules ->
         extract_class_info cls ∈ md_classes module ->
         ctor ∈ all_callables modules
         /\ slots ctor <= total_items_of modules
         /\ forall entry,
              entry ∈ missing_of ((md_name module +:+ "." +:+ cls_name cls)
                                    +:+ "." +:+ "__init__") ctor ->
              entry ∈ count_missing_annotations modules.
Proof.
  intros Hget Hfun Hsig.
  destruct (extract_function_info init "__init__") as [d|] eqn:Hd;
    [|unfold extract_function_info in Hd; rewrite Hsig in Hd; discriminate].
  assert (fd_name d = "__init__") as Hname.
  { unfold extract_function_info in Hd. rewrite Hsig in Hd.
    injection Hd as <-. reflexivity. }
  assert (set_isMethod d ∈ cd_methods (extract_class_info cls)) as Hin.
  { cbn [extract_class_info cd_methods].
    apply extract_methods_In with (name := "__init__") (c := init).
    - apply getmembers_isfunction_In; [|exact Hfun].
      now apply cls_getattr_Some.
    - reflexivity.
    - exact Hd. }
  exists (set_isMethod d). repeat split.
  - cbn [extract_class_info cd_constructor]. rewrite Hget. cbn [extract_attr_info].
    rewrite Hd. reflexivity.
  - exact Hin.
  - exact Hname.
  - eapply method_in_all_callables; eassumption.
  - rewrite total_items_of_slot_total. apply slots_le_slot_total.
    eapply method_in_all_callables; eassumption.
  - intros entry He.
    eapply method_missing_counted with (cls := extract_class_info cls)
                                       (method := set_isMethod d); try eassumption.
    cbn [set_isMethod fd_name extract_class_info cd_name]. rewrite Hname. exact He.
Qed.

Lemma constructor_listed_twice_witness :
  exists ctor,
    cd_constructor (extract_class_info Widget) = Some ctor
    /\ ctor ∈ cd_methods (extract_class_info Widget)
    /\ fd_name ctor = "__init__"
    /\ forall modules module,
         module ∈ modules ->
         extract_class_info Widget ∈ md_classes module ->
         ctor ∈ all_callables modules
         /\ slots ctor <= total_items_of modules
         /\ forall entry,
              entry ∈ missing_of ((md_name module +:+ "." +:+ cls_name Widget)
                                    +:+ "." +:+ "__init__") ctor ->
              entry ∈ count_missing_annotations modules.
Proof.
  exact (constructor_listed_twice Widget Widget_init
           {| parameters := map plain_param ["self"; "size"];
              return_annotation := PyEmpty |}
           eq_refl eq_refl eq_refl).
Defined.

(** The schema of a module holding only [Widget]: the constructor's
    return and its [size] parameter are both reported, once each. *)
Example Widget_missing :
  count_missing_annotations [shop]
  = ["shop.Widget.__init__ (return type)"; "shop.Widget.__init__.size"].
Proof. reflexivity. Qed.

(** ** Module walker *)









Example tools_functions :
  map fd_name (md_functions (extract_module_info tools "pkg.tools")) = ["helper"].
Proof. reflexivity. Qed.

(** ** Constants *)



(** ** Package assembler *)

Section AssemblerFacts.

Variable env : environment.

(** One guarded import, path by path. *)
Lemma try_submodule_run (submodule_name : string) (modules : list ModuleDescriptor)
    (st : process) :
  try_submodule env submodule_name modules st
  = match import_module env submodule_name (redirect st) with
    | (st1, Returned submodule) =>
        (restore st st1,
         Returned (append_if_api modules
                     (extract_module_info submodule submodule_name)))
    | (st1, Raised e) =>
        if is_Exception e || is_SystemExit e
        then (restore st st1, Returned modules)
        else (restore st st1, Raised e)
    end.
Proof.
  unfold try_submodule, try_except, try_finally, get_streams, new_StringIO,
    set_streams, append_if_api, mbind, mret, M_bind, M_ret.
  cbn. fold (redirect st).
  destruct (import_module env submodule_name (redirect st)) as [st1 [submodule|e]];
    cbn; fold (restore st st1).
  - destruct (negb _ || negb _); reflexivity.
  - reflexivity.
Qed.

Lemma try_submodule_streams (submodule_name : string)
    (modules : list ModuleDescriptor) (st : process) :
  fst (try_submodule env submodule_name modules st)
  = restore st (fst (import_module env submodule_name (redirect st))).
Proof.
  rewrite try_submodule_run.
  destruct (import_module env submodule_name (redirect st)) as [st1 [submodule|e]];
    [reflexivity|].
  destruct (is_Exception e || is_SystemExit e); reflexivity.
Qed.

Lemma for_py_files_streams (package_name : string) (stems : list string)
    (modules : list ModuleDescriptor) (st : process) :
  same_streams st (fst (for_py_files env package_name stems modules st)).
Proof.
  revert modules st.
  induction stems as [|stem rest IH]; intros modules st; cbn [for_py_files].
  - split; reflexivity.
  - destruct (PyStr.startswith "_" (stem +:+ ".py")); [apply IH|].
    unfold mbind, M_bind.
    pose proof (try_submodule_streams (package_name +:+ "." +:+ stem) modules st)
      as Hst.
    destruct (try_submodule env (package_name +:+ "." +:+ stem) modules st)
      as [st' [modules'|e]]; cbn [fst] in Hst; subst st'.
    + destruct (IH modules' (restore st (fst (import_module env
                  (package_name +:+ "." +:+ stem) (redirect st))))) as [Ho He].
      split; [rewrite Ho | rewrite He]; reflexivity.
    + split; reflexivity.
Qed.

Lemma for_paths_streams (package_name : string) (paths : list pkgdir)
    (modules : list ModuleDescriptor) (st : process) :
  same_streams st (fst (for_paths env package_name paths modules st)).
Proof.
  revert modules st.
  induction paths as [|path rest IH]; intros modules st; cbn [for_paths].
  - split; reflexivity.
  - destruct (dir_exists path); [|apply IH].
    unfold mbind, M_bind.
    pose proof (for_py_files_streams package_name (dir_py_stems path) modules st)
      as [Ho He].
    destruct (for_py_files env package_name (dir_py_stems path) modules st)
      as [st' [modules'|e]]; cbn [fst] in Ho, He.
    + destruct (IH modules' st') as [Ho' He'].
      split; [rewrite Ho', Ho | rewrite He', He]; reflexivity.
    + split; assumption.
Qed.

(** A whole run ends with the streams that the import of the package
    itself left installed. *)
Lemma extract_package_types_streams (package_name site_packages_path : string)
    (pip_name : option string) (st : process) :
  same_streams
    (fst (import_module env package_name (fst (add_to_sys_path site_packages_path st))))
    (fst (extract_package_types env package_name site_packages_path pip_name st)).
Proof.
  unfold extract_package_types, try_except, mbind, mret, M_bind, M_ret.
  destruct (add_to_sys_path site_packages_path st) as [st0 [[]|e0]] eqn:Hadd;
    [|unfold add_to_sys_path in Hadd; destruct (bool_decide _) in Hadd; discriminate].
  cbn [fst].
  destruct (import_module env package_name st0) as [st1 [main_module|e]]; cbn [fst].
  - pose proof (for_paths_streams package_name (default [] (mod_path main_module))
                  [extract_module_info main_module package_name] st1) as Hs.
    fold (@mbind M _). unfold mbind, M_bind.
    destruct (for_paths env package_name (default [] (mod_path main_module))
                [extract_module_info main_module package_name] st1)
      as [st2 [modules'|e]]; exact Hs.
  - destruct (is_ImportError e); split; reflexivity.
Qed.

(** C8: a submodule is imported with both streams redirected to one
    fresh buffer, and whatever the import does -- return, raise any
    exception, request exit, or reassign the streams itself -- the
    attempt ends with the streams that were installed before it; the
    loops over files and directories therefore end with the streams they
    started with, and a whole run with the streams the import of the
    package itself left. *)
Theorem streams_restored (package_name submodule_name site_packages_path : string)
    (pip_name : option string) (stems : list string) (paths : list pkgdir)
    (modules : list ModuleDescriptor) (st : process) :
  (sys_stdout (redirect st) = StringIO (buffers_made st)
   /\ sys_stderr (redirect st) = StringIO (buffers_made st))
  /\ fst (try_submodule env submodule_name modules st)
     = restore st (fst (import_module env submodule_name (redirect st)))
  /\ same_streams st (fst (try_submodule env submodule_name modules st))
  /\ same_streams st (fst (for_py_files env package_name stems modules st))
  /\ same_streams st (fst (for_paths env package_name paths modules st))
  /\ same_streams
       (fst (import_module env package_name
               (fst (add_to_sys_path site_packages_path st))))
       (fst (extract_package_types env package_name site_packages_path pip_name st)).
Proof.
  split; [split; reflexivity|].
  split; [apply try_submodule_streams|].
  split; [rewrite try_submodule_streams; split; reflexivity|].
  split; [apply for_py_files_streams|].
  split; [apply for_paths_streams | apply extract_package_types_streams].
Qed.



End AssemblerFacts.




(** The whole run on [pkg]: [bad] is absent, [good] is present, and the
    streams are the console's again. *)
Example demo_run :
  match extract_package_types demo_env "pkg" "site" None console with
  | (st, Returned (Schema schema)) =>
      map md_name (modules schema) = ["pkg"; "pkg.good"]
      /\ missingAnnotations schema = ["pkg.good.run (return type)"; "pkg.good.run.job"]
      /\ sys_stdout st = Handle 1 /\ sys_stderr st = Handle 2
  | _ => False
  end.
Proof. vm_compute. repeat split. Qed.

(** C2 as stated fails: importing [broken] fails with an exception that
    is not an [ImportError], and the exception reaches the caller. *)
Lemma import_failure_escapes :
  extract_package_types demo_env "broken" "site" None console
  = ({| sys_path := ["site"]; sys_stdout := Handle 1; sys_stderr := Handle 2;
        buffers_made := 0 |},
     Raised {| exc_type := OtherException; exc_str := "bad configuration" |}).
Proof. reflexivity. Qed.

(** C2 (amended): when the import of the named package raises
    [ImportError] (a missing package raises its subclass
    [ModuleNotFoundError]), the result is the dictionary whose only key is
    ["error"], with the text ["Failed to import <name>: <reason>"], and
    nothing is raised; any other exception raised by that import is
    raised to the caller. *)
Theorem import_error_result (env : environment)
    (package_name site_packages_path : string) (pip_name : option string)
    (st st1 : process) (e : pyexc) :
  import_module env package_name (fst (add_to_sys_path site_packages_path st))
  = (st1, Raised e) ->
  (is_ImportError e = true ->
   exists result,
     extract_package_types env package_name site_packages_path pip_name st
     = (st1, Returned result)
     /\ result = ErrorDict ("Failed to import " +:+ package_name +:+ ": " +:+ exc_str e)
     /\ keys result = ["error"])
  /\ (is_ImportError e = false ->
      extract_package_types env package_name site_packages_path pip_name st
      = (st1, Raised e)).
Proof.
  intros Himp.
  unfold extract_package_types, try_except, mbind, mret, M_bind, M_ret.
  destruct (add_to_sys_path site_packages_path st) as [st0 [[]|e0]] eqn:Hadd;
    [|unfold add_to_sys_path in Hadd; destruct (bool_decide _) in Hadd; discriminate].
  cbn [fst] in Himp. rewrite Himp.
  split; intros ->.
  - eexists. repeat split.
  - reflexivity.
Qed.

Lemma import_error_result_witness :
  exists result,
    extract_package_types demo_env "nosuchpkg" "site" None console
    = ({| sys_path := ["site"]; sys_stdout := Handle 1; sys_stderr := Handle 2;
          buffers_made := 0 |}, Returned result)
    /\ result = ErrorDict "Failed to import nosuchpkg: No module named 'nosuchpkg'"
    /\ keys result = ["error"].
Proof.
  refine (proj1 (import_error_result demo_env "nosuchpkg" "site" None console _
                   {| exc_type := ImportError;
                      exc_str := "No module named 'nosuchpkg'" |} _) _);
    reflexivity.
Defined.

(** ** Binary64 arithmetic

    The primitive operations are specified by the functions of
    [SpecFloat]; the lemmas below bound what those functions return on
    positive normal numbers, which is all the coverage computation
    meets. *)

(** Closes [2 ^ a = 2 ^ b * 2 ^ c] when [a = b + c] with [0 <= b, c]. *)
Ltac pow2_add := rewrite <- ?Z.pow_add_r by lia; f_equal; lia.

Lemma digits2_pos_size (p : positive) : digits2_pos p = Pos.size p.
Proof. induction p; cbn; congruence. Qed.

Lemma pos_pow_Z (a b : positive) : Zpos (a ^ b) = Zpos a ^ Zpos b.
Proof. apply Pos2Z.inj_pow. Qed.

Lemma digits2_bounds (p : positive) :
  2 ^ (Zpos (digits2_pos p) - 1) <= Zpos p < 2 ^ Zpos (digits2_pos p).
Proof.
  rewrite digits2_pos_size.
  pose proof (Pos.size_gt p) as Hgt. pose proof (Pos.size_le p) as Hle.
  apply Pos2Z.pos_lt_pos in Hgt. apply Pos2Z.pos_le_pos in Hle.
  rewrite pos_pow_Z in Hgt, Hle.
  replace (2 ^ Zpos (Pos.size p)) with (2 * 2 ^ (Zpos (Pos.size p) - 1)) in *
    by (rewrite <- Z.pow_succ_r by lia; f_equal; lia).
  change (Zpos p~0) with (2 * Zpos p) in Hle. lia.
Qed.

Lemma digits2_unique (p : positive) (d : Z) :
  2 ^ (d - 1) <= Zpos p < 2 ^ d -> Zpos (digits2_pos p) = d.
Proof.
  intros [Hlo Hhi]. pose proof (digits2_bounds p) as [Hlo' Hhi'].
  assert (0 < d) as Hd.
  { destruct (Z.le_gt_cases d 0) as [H|H]; [|exact H].
    exfalso. assert (2 ^ d <= 2 ^ 0) by (apply Z.pow_le_mono_r; lia).
    change (2 ^ 0) with 1 in *. lia. }
  set (d' := Zpos (digits2_pos p)) in *.
  assert (0 < d') by (subst d'; lia).
  destruct (Z.lt_trichotomy d' d) as [H1|[H1|H1]]; [|exact H1|].
  - exfalso. assert (2 ^ d' <= 2 ^ (d - 1)) by (apply Z.pow_le_mono_r; lia). lia.
  - exfalso. assert (2 ^ d <= 2 ^ (d' - 1)) by (apply Z.pow_le_mono_r; lia). lia.
Qed.

Lemma iter_pos_iter {A} (f : A -> A) (p : positive) (x : A) :
  SpecFloat.iter_pos f p x = Pos.iter f x p.
Proof.
  revert x. induction p as [p IH|p IH|]; intros x; cbn.
  - rewrite !IH. rewrite <- Pos.iter_swap. f_equal. rewrite Pos.iter_swap. reflexivity.
  - rewrite !IH. reflexivity.
  - reflexivity.
Qed.

Lemma shr_1_spec (m : Z) (r s : bool) :
  0 <= m ->
  shr_1 (Build_shr_record m r s) = Build_shr_record (m / 2) (Z.odd m) (r || s).
Proof.
  intros Hm. destruct m as [|p|p]; [reflexivity| |lia].
  destruct p as [p|p|]; cbn [shr_1].
  - f_equal. change (Zpos p~1) with (2 * Zpos p + 1).
    apply Z.div_unique with (r := 1); lia.
  - f_equal. change (Zpos p~0) with (2 * Zpos p).
    apply Z.div_unique with (r := 0); lia.
  - reflexivity.
Qed.

Lemma shr_1_nonneg (mrs : shr_record) : 0 <= shr_m mrs -> 0 <= shr_m (shr_1 mrs).
Proof.
  destruct mrs as [m r s]. cbn [shr_m]. intros Hm.
  rewrite shr_1_spec by exact Hm. cbn [shr_m]. apply Z.div_pos; lia.
Qed.

Lemma iter_shr_1 (p : positive) (mrs : shr_record) :
  0 <= shr_m mrs ->
  shr_m (Pos.iter shr_1 mrs p) = shr_m mrs / 2 ^ Zpos p
  /\ shr_r (Pos.iter shr_1 mrs p) = Z.testbit (shr_m mrs) (Zpos p - 1).
Proof.
  intros Hm. induction p as [|p IH] using Pos.peano_ind.
  - destruct mrs as [m r s]. cbn [Pos.iter shr_m] in *.
    rewrite shr_1_spec by exact Hm. cbn [shr_m shr_r].
    split; [reflexivity|]. change (1 - 1) with 0. symmetry. apply Z.bit0_odd.
  - rewrite Pos.iter_succ. destruct IH as [IHm IHr].
    destruct (Pos.iter shr_1 mrs p) as [m' r' s'] eqn:E. cbn [shr_m shr_r] in *.
    assert (0 <= m') as Hm' by (rewrite IHm; apply Z.div_pos; lia).
    rewrite shr_1_spec by exact Hm'. cbn [shr_m shr_r].
    rewrite Pos2Z.inj_succ. split.
    + rewrite IHm, Z.pow_succ_r by lia.
      rewrite Z.div_div by lia. f_equal. lia.
    + rewrite IHm. replace (Z.succ (Zpos p) - 1) with (Zpos p) by lia.
      rewrite Z.testbit_odd, Z.shiftr_div_pow2 by lia. reflexivity.
Qed.

Lemma round_bit_bound (m n : Z) :
  0 <= m -> 0 < n -> Z.testbit m (n - 1) = true ->
  2 ^ n * (m / 2 ^ n) + 2 ^ (n - 1) <= m.
Proof.
  intros Hm Hn Hbit.
  pose proof (Z.testbit_spec' m (n - 1) ltac:(lia)) as Hs.
  rewrite Hbit in Hs. cbn [Z.b2z] in Hs.
  assert (0 < 2 ^ (n - 1)) as Hp by (apply Z.pow_pos_nonneg; lia).
  assert (2 ^ n = 2 * 2 ^ (n - 1)) as Hn2.
  { rewrite <- Z.pow_succ_r by lia. f_equal. lia. }
  set (q := m / 2 ^ (n - 1)) in *.
  assert (m / 2 ^ n = q / 2) as Hq.
  { rewrite Hn2, Z.mul_comm, <- Z.div_div by lia. reflexivity. }
  pose proof (Z.div_mod m (2 ^ (n - 1)) ltac:(lia)) as Hdm.
  pose proof (Z.mod_pos_bound m (2 ^ (n - 1)) Hp) as Hb.
  pose proof (Z.div_mod q 2 ltac:(lia)) as Hq2.
  fold q in Hdm. rewrite Hq, Hn2. rewrite <- Hs in Hq2.  nia.
Qed.

Lemma loc_of_shr_record_of_loc (m : Z) (l : location) :
  loc_of_shr_record (shr_record_of_loc m l) = l.
Proof. destruct l as [|[]]; reflexivity. Qed.

Lemma round_nearest_even_bounds (mrs : shr_record) :
  let m1 := round_nearest_even (shr_m mrs) (loc_of_shr_record mrs) in
  shr_m mrs <= m1 <= shr_m mrs + 1
  /\ (m1 = shr_m mrs + 1 -> shr_r mrs = true).
Proof.
  destruct mrs as [m [|] [|]]; cbn; try destruct (Z.even m); split; try lia; auto;
    intros; lia.
Qed.

Lemma fexp_normal (e : Z) : -1074 <= e - 53 -> fexp prec emax e = e - 53.
Proof. intros H. unfold fexp, SpecFloat.emin, prec, emax. lia. Qed.

Lemma Zdigits2_unique (m d : Z) :
  0 < m -> 2 ^ (d - 1) <= m < 2 ^ d -> Zdigits2 m = d.
Proof.
  intros Hm H. destruct m as [|p|p]; try lia. cbn [Zdigits2].
  now apply digits2_unique.
Qed.

Lemma shr_fexp_normal (m e d : Z) (l : location) :
  0 < m -> 2 ^ (d - 1) <= m < 2 ^ d -> 53 <= d -> -1074 <= d + e - 53 ->
  exists mrs,
    shr_fexp prec emax m e l = (mrs, e + (d - 53))
    /\ shr_m mrs = m / 2 ^ (d - 53)
    /\ (shr_r mrs = true ->
        (d = 53 /\ half_or_more l) \/ (53 < d /\ Z.testbit m (d - 53 - 1) = true))
    /\ (d = 53 -> loc_of_shr_record mrs = l).
Proof.
  intros Hm Hd Hd53 He. unfold shr_fexp.
  rewrite (Zdigits2_unique m d Hm Hd), fexp_normal by lia.
  replace (d + e - 53 - e) with (d - 53) by lia.
  destruct (d - 53) as [|p|p] eqn:En; [| |lia].
  - exists (shr_record_of_loc m l). cbn [shr].
    replace (e + 0) with e by lia. split; [reflexivity|].
    split; [cbn; rewrite Z.div_1_r; destruct l as [|[]]; reflexivity|].
    split.
    + intros Hr. left. split; [lia|].
      destruct l as [|[]]; cbn in Hr; try discriminate; [left|right]; reflexivity.
    + intros _. apply loc_of_shr_record_of_loc.
  - exists (SpecFloat.iter_pos shr_1 p (shr_record_of_loc m l)). cbn [shr].
    split; [reflexivity|].
    rewrite iter_pos_iter.
    assert (shr_m (shr_record_of_loc m l) = m) as Hsm by (destruct l as [|[]]; reflexivity).
    destruct (iter_shr_1 p (shr_record_of_loc m l)) as [Hm' Hr']; [rewrite Hsm; lia|].
    rewrite Hsm in Hm', Hr'.
    split; [exact Hm'|]. split.
    + intros Hr. right. split; [lia|]. rewrite <- Hr'. exact Hr.
    + intros ->. discriminate En.
Qed.

Lemma div_pow2_range (m d : Z) :
  53 <= d -> 2 ^ (d - 1) <= m < 2 ^ d -> 2 ^ 52 <= m / 2 ^ (d - 53) < 2 ^ 53.
Proof.
  intros Hd [Hlo Hhi].
  assert (0 < 2 ^ (d - 53)) as Hp by (apply Z.pow_pos_nonneg; lia).
  assert (2 ^ (d - 1) = 2 ^ 52 * 2 ^ (d - 53)) as E1
    by pow2_add.
  assert (2 ^ d = 2 ^ 53 * 2 ^ (d - 53)) as E2
    by pow2_add.
  split.
  - apply Z.div_le_lower_bound; [exact Hp|]. lia.
  - apply Z.div_lt_upper_bound; [exact Hp|]. lia.
Qed.

(** Rounding a positive significand of at least 53 digits. *)
Lemma binary_round_aux_normal (mx ex d : Z) (lx : location) :
  0 < mx -> 2 ^ (d - 1) <= mx < 2 ^ d -> 53 <= d ->
  -1074 <= d + ex - 53 -> d + ex - 53 < 971 ->
  exists m e c,
    binary_round_aux prec emax false mx ex lx = S754_finite false m e
    /\ 2 ^ 52 <= Zpos m < 2 ^ 53
    /\ (c = 0 \/ c = 1)
    /\ e = ex + (d - 53) + c
    /\ mx / 2 ^ (d - 53) <= Zpos m * 2 ^ c <= mx / 2 ^ (d - 53) + 1
    /\ (Zpos m * 2 ^ c = mx / 2 ^ (d - 53) + 1 ->
        (d = 53 /\ half_or_more lx) \/ (53 < d /\ Z.testbit mx (d - 53 - 1) = true)).
Proof.
  intros Hm Hd Hd53 Hlo Hhi. unfold binary_round_aux.
  destruct (shr_fexp_normal mx ex d lx Hm Hd Hd53 Hlo) as (mrs & -> & Hsm & Hsr & _).
  pose proof (round_nearest_even_bounds mrs) as [Hb Hup]. cbv zeta in Hb, Hup.
  set (m1 := round_nearest_even (shr_m mrs) (loc_of_shr_record mrs)) in *.
  pose proof (div_pow2_range mx d Hd53 Hd) as Hrange. rewrite <- Hsm in Hrange.
  set (e' := ex + (d - 53)).
  destruct (Z.eq_dec m1 (2 ^ 53)) as [Htop|Htop].
  - (* the rounding carried into a 54th digit *)
    assert (2 ^ (54 - 1) <= m1 < 2 ^ 54) as Hd1 by (rewrite Htop; cbn; lia).
    destruct (shr_fexp_normal m1 e' 54 loc_Exact ltac:(lia) Hd1 ltac:(lia) ltac:(lia))
      as (mrs2 & -> & Hsm2 & _).
    rewrite Hsm2, Htop. change (2 ^ 53 / 2 ^ (54 - 53)) with (Zpos (2 ^ 52)).
    replace (e' + (54 - 53) <=? emax - prec) with true
      by (symmetry; apply Z.leb_le; unfold emax, prec; lia).
    exists (2 ^ 52)%positive, (e' + 1), 1.
    split; [reflexivity|]. split; [cbn; lia|]. split; [now right|].
    split; [reflexivity|].
    change (Zpos (2 ^ 52) * 2 ^ 1) with (2 ^ 53). rewrite <- Htop, <- Hsm.
    split; [exact Hb|]. intros H. apply Hsr, Hup. exact H.
  - assert (2 ^ (53 - 1) <= m1 < 2 ^ 53) as Hd1 by (change (53 - 1) with 52; lia).
    destruct (shr_fexp_normal m1 e' 53 loc_Exact ltac:(lia) Hd1 ltac:(lia) ltac:(lia))
      as (mrs2 & -> & Hsm2 & _).
    rewrite Hsm2. change (2 ^ (53 - 53)) with 1. rewrite Z.div_1_r.
    destruct m1 as [|p1|p1] eqn:Em1; try lia.
    replace (e' + (53 - 53) <=? emax - prec) with true
      by (symmetry; apply Z.leb_le; unfold emax, prec; lia).
    exists p1, e', 0.
    split; [f_equal; lia|]. split; [change (53 - 1) with 52 in Hd1; exact Hd1|].
    split; [now left|]. split; [lia|].
    change (2 ^ 0) with 1. rewrite Z.mul_1_r, <- Hsm.
    split; [exact Hb|]. intros H. apply Hsr, Hup. exact H.
Qed.

Lemma binary_round_aux_exact (mx ex : Z) :
  2 ^ 52 <= mx < 2 ^ 53 -> -1074 <= ex < 971 ->
  binary_round_aux prec emax false mx ex loc_Exact = S754_finite false (Z.to_pos mx) ex.
Proof.
  intros Hm He.
  destruct (binary_round_aux_normal mx ex 53 loc_Exact ltac:(lia)
              ltac:(change (53 - 1) with 52; lia) ltac:(lia) ltac:(lia) ltac:(lia))
    as (m & e & c & -> & Hr & Hc & -> & Hb & Hup).
  change (2 ^ (53 - 53)) with 1 in *. rewrite Z.div_1_r in *.
  assert (Zpos m * 2 ^ c = mx) as Hval.
  { destruct (Z.eq_dec (Zpos m * 2 ^ c) (mx + 1)) as [E|E]; [|lia].
    destruct (Hup E) as [[_ [H|H]]|[H _]]; [discriminate H | discriminate H | lia]. }
  destruct Hc as [-> | ->].
  - change (2 ^ 0) with 1 in Hval. rewrite Z.mul_1_r in Hval. subst mx.
    f_equal. lia.
  - change (2 ^ 1) with 2 in Hval. lia.
Qed.

Lemma iter_xO (p k : positive) : Zpos (Pos.iter xO p k) = Zpos p * 2 ^ Zpos k.
Proof.
  induction k as [|k IH] using Pos.peano_ind.
  - cbn [Pos.iter]. change (2 ^ 1) with 2. lia.
  - rewrite Pos.iter_succ, Pos2Z.inj_succ, Z.pow_succ_r by lia.
    change (Zpos (Pos.iter xO p k)~0) with (2 * Zpos (Pos.iter xO p k)). lia.
Qed.

(** The binary64 number of a positive integer below [2^53]: the integer
    itself, shifted left to fill 53 digits. *)
Lemma Prim2SF_of_Z (n d : Z) :
  0 < n -> 2 ^ (d - 1) <= n < 2 ^ d -> d <= 53 ->
  Prim2SF (of_uint63 (Uint63.of_Z n))
  = S754_finite false (Z.to_pos (n * 2 ^ (53 - d))) (d - 53).
Proof.
  intros Hn Hd Hd53.
  assert (0 < d) as Hd0.
  { destruct (Z.le_gt_cases d 0) as [H|H]; [|exact H].
    exfalso. assert (2 ^ d <= 2 ^ 0) by (apply Z.pow_le_mono_r; lia).
    change (2 ^ 0) with 1 in *. lia. }
  assert (n < 2 ^ 53) as Hn53.
  { assert (2 ^ d <= 2 ^ 53) by (apply Z.pow_le_mono_r; lia). lia. }
  rewrite of_uint63_spec, Uint63.of_Z_spec.
  rewrite Z.mod_small by (change wB with (2 ^ 63); lia).
  destruct n as [|p|p]; try lia. cbn [binary_normalize]. unfold binary_round.
  rewrite (digits2_unique p d Hd), fexp_normal by lia.
  unfold shl_align. replace (d + 0 - 53 - 0) with (d - 53) by lia.
  destruct (d - 53) as [|k|k] eqn:Ek; [| lia |].
  - assert (d = 53) as -> by lia. change (2 ^ (53 - 53)) with 1. rewrite Z.mul_1_r.
    rewrite binary_round_aux_exact; [reflexivity | change (53 - 1) with 52 in Hd; exact Hd | lia].
  - assert (53 - d = Zpos k) as Ek' by lia. rewrite Ek'.
    rewrite binary_round_aux_exact.
    + rewrite iter_xO. replace (d + 0 - 53) with (Zneg k) by lia. reflexivity.
    + rewrite iter_xO, <- Ek'.
      assert (2 ^ 52 = 2 ^ (d - 1) * 2 ^ (53 - d)) as E1
        by pow2_add.
      assert (2 ^ 53 = 2 ^ d * 2 ^ (53 - d)) as E2
        by pow2_add.
      assert (0 < 2 ^ (53 - d)) by (apply Z.pow_pos_nonneg; lia).
      rewrite E1, E2. nia.
    + lia.
Qed.

Lemma new_location_half (my r : Z) :
  0 < my -> 0 <= r < my -> half_or_more (new_location my r) -> my <= 2 * r.
Proof.
  intros Hmy Hr. unfold new_location, new_location_even, new_location_odd, half_or_more.
  destruct (Z.even my) eqn:Ev; destruct (Z.eqb_spec r 0) as [->|Hr0].
  - intros [H|H]; discriminate H.
  - destruct (Z.compare_spec (2 * r) my); intros [E|E]; try discriminate E; lia.
  - intros [H|H]; discriminate H.
  - destruct (Z.compare_spec (2 * r + 1) my); intros [E|E]; try discriminate E; lia.
Qed.

(** Division of two positive normal numbers: the quotient, as a multiple
    [m * 2^c] of the unit [2^(ex - ey - 53)], exceeds the exact quotient
    by a factor of at most [2^53 / (2^53 - 1)]. *)
Lemma SFdiv_normal (mx my : positive) (ex ey : Z) :
  2 ^ 52 <= Zpos mx < 2 ^ 53 -> 2 ^ 52 <= Zpos my < 2 ^ 53 ->
  -400 <= ex <= 400 -> -400 <= ey <= 400 ->
  exists m e c,
    SFdiv prec emax (S754_finite false mx ex) (S754_finite false my ey)
    = S754_finite false m e
    /\ 2 ^ 52 <= Zpos m < 2 ^ 53
    /\ 0 <= c <= 2
    /\ e = ex - ey - 53 + c
    /\ Zpos m * 2 ^ c * Zpos my * (2 ^ 53 - 1) <= Zpos mx * 2 ^ 106.
Proof.
  intros Hmx Hmy Hex Hey. cbn [SFdiv xorb]. unfold SFdiv_core_binary.
  rewrite (Zdigits2_unique (Zpos mx) 53), (Zdigits2_unique (Zpos my) 53)
    by (change (53 - 1) with 52; lia).
  rewrite fexp_normal by lia.
  replace (Z.min (53 + ex - (53 + ey) - 53) (ex - ey)) with (ex - ey - 53) by lia.
  replace (ex - ey - (ex - ey - 53)) with 53 by lia.
  cbv iota beta. rewrite Z.shiftl_mul_pow2 by lia.
  pose proof (Z_div_mod (Zpos mx * 2 ^ 53) (Zpos my) ltac:(lia)) as Hdm.
  destruct (Z.div_eucl (Zpos mx * 2 ^ 53) (Zpos my)) as [q r].
  destruct Hdm as [Hq Hr].
  assert (2 ^ 52 <= q < 2 ^ 54) as Hqr.
  { change (2 ^ 52) with 4503599627370496 in *.
    change (2 ^ 53) with 9007199254740992 in *.
    change (2 ^ 54) with 18014398509481984. nia. }
  assert (exists d, (d = 53 \/ d = 54) /\ 2 ^ (d - 1) <= q < 2 ^ d) as (d & Hd & Hqd).
  { destruct (Z.lt_ge_cases q (2 ^ 53)) as [H|H];
      [exists 53 | exists 54]; (split; [auto|]); cbn; cbn in H, Hqr; lia. }
  destruct (binary_round_aux_normal q (ex - ey - 53) d (new_location (Zpos my) r)
              ltac:(lia) Hqd ltac:(lia) ltac:(lia) ltac:(lia))
    as (m & e & c0 & -> & Hm & Hc0 & -> & Hb & Hup).
  exists m, (ex - ey - 53 + (d - 53) + c0), (d - 53 + c0).
  split; [reflexivity|]. split; [exact Hm|]. split; [lia|]. split; [lia|].
  assert (2 * (Zpos m * 2 ^ (d - 53 + c0)) * Zpos my
          <= 2 * (Zpos mx * 2 ^ 53) + 2 ^ (d - 53 + c0) * Zpos my) as Hbound.
  { rewrite Z.pow_add_r by lia.
    assert (0 < 2 ^ c0) as Hpc by (apply Z.pow_pos_nonneg; lia).
    set (M0 := Zpos m * 2 ^ c0) in *.
    destruct Hd as [-> | ->].
    - change (2 ^ (53 - 53)) with 1 in *. rewrite Z.div_1_r in *.
      destruct (Z.eq_dec M0 (q + 1)) as [E|E].
      + destruct (Hup E) as [[_ Hhalf]|[Hlt _]]; [|lia].
        apply new_location_half in Hhalf; nia.
      + nia.
    - change (2 ^ (54 - 53)) with 2 in *.
      pose proof (Z.div_mod q 2 ltac:(lia)) as Hq2.
      pose proof (Z.mod_pos_bound q 2 ltac:(lia)) as Hq2b.
      assert (2 * M0 <= q + 1) as H2.
      { destruct (Z.eq_dec M0 (q / 2 + 1)) as [E|E]; [|lia].
        destruct (Hup E) as [[Hd _]|[_ Hbit]]; [lia|].
        change (54 - 53 - 1) with 0 in Hbit.
        pose proof (Z.testbit_spec' q 0 ltac:(lia)) as Hs.
        rewrite Hbit in Hs. change (2 ^ 0) with 1 in Hs. rewrite Z.div_1_r in Hs.
        cbn [Z.b2z] in Hs. lia. }
      assert (2 * M0 * Zpos my <= (q + 1) * Zpos my) as H3
        by (apply Z.mul_le_mono_nonneg_r; lia).
      nia. }
  assert (2 ^ (d - 53 + c0) * 2 ^ 52 <= Zpos m * 2 ^ (d - 53 + c0)) as Hrel.
  { assert (0 < 2 ^ (d - 53 + c0)) by (apply Z.pow_pos_nonneg; lia). nia. }
  change (2 ^ 106) with (2 ^ 53 * 2 ^ 53).
  change (2 ^ 53) with 9007199254740992 in *.
  change (2 ^ 52) with 4503599627370496 in *.
  set (M := Zpos m * 2 ^ (d - 53 + c0)) in *.
  set (u := 2 ^ (d - 53 + c0)) in *.
  nia.
Qed.

(** Multiplication of two positive normal numbers. *)
Lemma SFmul_normal (mx my : positive) (ex ey : Z) :
  2 ^ 52 <= Zpos mx < 2 ^ 53 -> 2 ^ 52 <= Zpos my < 2 ^ 53 ->
  -400 <= ex <= 400 -> -400 <= ey <= 400 ->
  exists m e k,
    SFmul prec emax (S754_finite false mx ex) (S754_finite false my ey)
    = S754_finite false m e
    /\ 2 ^ 52 <= Zpos m < 2 ^ 53
    /\ 52 <= k <= 54
    /\ e = ex + ey + k
    /\ Zpos m * 2 ^ k * (2 ^ 53 - 1) <= Zpos mx * Zpos my * 2 ^ 53.
Proof.
  intros Hmx Hmy Hex Hey. cbn [SFmul xorb].
  set (P := Zpos (mx * my)).
  assert (P = Zpos mx * Zpos my) as HP by reflexivity.
  assert (2 ^ 104 <= P < 2 ^ 106) as HPr.
  { rewrite HP. change (2 ^ 104) with (2 ^ 52 * 2 ^ 52).
    change (2 ^ 106) with (2 ^ 53 * 2 ^ 53).
    change (2 ^ 52) with 4503599627370496 in *.
    change (2 ^ 53) with 9007199254740992 in *. nia. }
  assert (exists d, (d = 105 \/ d = 106) /\ 2 ^ (d - 1) <= P < 2 ^ d) as (d & Hd & HPd).
  { destruct (Z.lt_ge_cases P (2 ^ 105)) as [H|H];
      [exists 105 | exists 106]; (split; [auto|]); cbn; cbn in H, HPr; lia. }
  destruct (binary_round_aux_normal P (ex + ey) d loc_Exact
              ltac:(lia) HPd ltac:(lia) ltac:(lia) ltac:(lia))
    as (m & e & c0 & -> & Hm & Hc0 & -> & Hb & Hup).
  exists m, (ex + ey + (d - 53) + c0), (d - 53 + c0).
  split; [reflexivity|]. split; [exact Hm|]. split; [lia|]. split; [lia|].
  rewrite <- HP. rewrite Z.pow_add_r by lia.
  assert (0 < 2 ^ c0) as Hpc by (apply Z.pow_pos_nonneg; lia).
  assert (0 < 2 ^ (d - 53)) as Hpn by (apply Z.pow_pos_nonneg; lia).
  set (M0 := Zpos m * 2 ^ c0) in *.
  assert (2 ^ 52 <= M0) as HM0 by (unfold M0; nia).
  assert (2 * (M0 * 2 ^ (d - 53)) <= 2 * P + 2 ^ (d - 53)) as Hbound.
  { pose proof (Z.div_mod P (2 ^ (d - 53)) ltac:(lia)) as Hdm.
    pose proof (Z.mod_pos_bound P (2 ^ (d - 53)) Hpn) as Hmb.
    destruct (Z.eq_dec M0 (P / 2 ^ (d - 53) + 1)) as [E|E].
    - destruct (Hup E) as [[Hd' _]|[_ Hbit]]; [lia|].
      pose proof (round_bit_bound P (d - 53) ltac:(lia) ltac:(lia) Hbit) as Hrb.
      assert (2 ^ (d - 53) = 2 * 2 ^ (d - 53 - 1)) as E2.
      { rewrite <- Z.pow_succ_r by lia. f_equal. lia. }
      rewrite E. nia.
    - assert (M0 <= P / 2 ^ (d - 53)) by lia. nia. }
  change (2 ^ 53) with 9007199254740992 in *.
  change (2 ^ 52) with 4503599627370496 in *.
  replace (Zpos m * (2 ^ (d - 53) * 2 ^ c0)) with (M0 * 2 ^ (d - 53)) by (unfold M0; ring).
  set (u := 2 ^ (d - 53)) in *.
  nia.
Qed.

Lemma check_below_spec (check : Z -> bool) (p : positive) :
  fst (Pos.iter (check_next check) (0, true) p) = Zpos p
  /\ (check_below check p = true -> forall n, 0 <= n < Zpos p -> check n = true).
Proof.
  unfold check_below.
  induction p as [|p [IHf IHs]] using Pos.peano_ind.
  - cbn. split; [reflexivity|]. intros H n Hn. assert (n = 0) as -> by lia. exact H.
  - rewrite Pos.iter_succ. unfold check_next at 1 3. cbn [fst snd].
    rewrite IHf. split; [lia|].
    intros H n Hn. apply andb_true_iff in H as [H1 H2].
    destruct (Z.eq_dec n (Zpos p)) as [->|Hne]; [exact H2|].
    apply IHs; [exact H1 | lia].
Qed.

Lemma hundredths_checked : check_below hundredth_below_100 10000 = true.
Proof. vm_compute. reflexivity. Qed.

Lemma hundredths_lt_100 (n : Z) :
  0 <= n <= 9999 -> hundredth_below_100 n = true.
Proof.
  intros Hn.
  apply (proj2 (check_below_spec hundredth_below_100 10000) hundredths_checked).
  lia.
Qed.

Lemma round_half_even_below (p q N : Z) :
  0 < q -> 0 <= p -> 2 * p < (2 * N - 1) * q ->
  0 <= PyNum.round_half_even p q <= N - 1.
Proof.
  intros Hq Hp Hlt. unfold PyNum.round_half_even.
  pose proof (Z.div_mod p q ltac:(lia)) as Hdm.
  pose proof (Z.mod_pos_bound p q Hq) as Hmb.
  assert (0 <= p / q) as Hd by (apply Z.div_pos; lia).
  set (d := p / q) in *. set (r := p mod q) in *.
  destruct (Z.ltb_spec (2 * r) q); [nia|].
  assert (d + 1 <= N - 1) by nia.
  destruct (q <? 2 * r); [lia|]. destruct (Z.even d); lia.
Qed.

Lemma margin (t m : Z) :
  0 < m <= t -> t < 20000 * m -> t < 2 ^ 32 ->
  20000 * (t - m) * 2 ^ 106 < 19999 * t * ((2 ^ 53 - 1) * (2 ^ 53 - 1)).
Proof.
  intros Hm Ht Hb.
  change (2 ^ 106) with 81129638414606681695789005144064.
  change ((2 ^ 53 - 1) * (2 ^ 53 - 1)) with 81129638414606663681390495662081.
  change (2 ^ 32) with 4294967296 in Hb. lia.
Qed.

Lemma digits_exist (n : Z) : 0 < n -> exists d, 0 < d /\ 2 ^ (d - 1) <= n < 2 ^ d.
Proof.
  intros Hn. exists (Z.log2 n + 1).
  pose proof (Z.log2_spec n Hn) as H. pose proof (Z.log2_nonneg n).
  replace (Z.log2 n + 1 - 1) with (Z.log2 n) by lia.
  replace (Z.log2 n + 1) with (Z.succ (Z.log2 n)) by lia. lia.
Qed.

Lemma digits_le (n d b : Z) : 0 <= b -> 2 ^ (d - 1) <= n < 2 ^ d -> n < 2 ^ b -> d <= b.
Proof.
  intros Hb [Hlo _] Hn.
  destruct (Z.le_gt_cases d b) as [H|H]; [exact H|].
  exfalso. assert (2 ^ b <= 2 ^ (d - 1)) by (apply Z.pow_le_mono_r; lia). lia.
Qed.

Lemma Prim2SF_100 :
  Prim2SF (PyNum.float_of_Z 100) = S754_finite false 7036874417766400 (-46).
Proof. reflexivity. Qed.

Lemma float_of_Z_pos (n : Z) : 0 <= n -> PyNum.float_of_Z n = of_uint63 (Uint63.of_Z n).
Proof.
  intros Hn. unfold PyNum.float_of_Z.
  destruct (Z.ltb_spec n 0); [lia | reflexivity].
Qed.

Lemma pow2_pos (e : Z) : 0 <= e -> 0 < 2 ^ e.
Proof. intros. apply Z.pow_pos_nonneg; lia. Qed.

Lemma normal_of_int (n d : Z) :
  0 < n -> 2 ^ (d - 1) <= n < 2 ^ d -> 0 < d <= 53 ->
  2 ^ 52 <= Zpos (Z.to_pos (n * 2 ^ (53 - d))) < 2 ^ 53
  /\ Zpos (Z.to_pos (n * 2 ^ (53 - d))) = n * 2 ^ (53 - d).
Proof.
  intros Hn Hd Hd53.
  pose proof (pow2_pos (53 - d) ltac:(lia)) as Hp.
  assert (2 ^ 52 = 2 ^ (d - 1) * 2 ^ (53 - d)) as E1
    by pow2_add.
  assert (2 ^ 53 = 2 ^ d * 2 ^ (53 - d)) as E2
    by pow2_add.
  rewrite Z2Pos.id by nia. split; [|reflexivity].
  rewrite E1, E2. nia.
Qed.

(** The float [a / b * 100] for integers [0 < a <= b < 2^53]: a positive
    normal number [m * 2^e] with [m * 2^e * (1 - 2^-53)^2 * b <= 100 * a]. *)
Lemma quotient_times_100 (a b : Z) :
  0 < a -> a <= b -> b < 2 ^ 53 ->
  exists m e,
    Prim2SF (PyNum.mul_int (PyNum.truediv a b) 100) = S754_finite false m e
    /\ -200 <= e <= -43
    /\ Zpos m * ((2 ^ 53 - 1) * (2 ^ 53 - 1)) * b <= 100 * a * 2 ^ 106 * 2 ^ (- e).
Proof.
  intros Ha Hab Hb.
  destruct (digits_exist a Ha) as (da & Hda0 & Hda).
  destruct (digits_exist b ltac:(lia)) as (db & Hdb0 & Hdb).
  pose proof (digits_le b db 53 ltac:(lia) Hdb Hb) as Hdb53.
  assert (da <= db) as Hdab.
  { destruct (Z.le_gt_cases da db) as [H|H]; [exact H|]. exfalso.
    assert (2 ^ db <= 2 ^ (da - 1)) by (apply Z.pow_le_mono_r; lia). lia. }
  destruct (normal_of_int a da Ha Hda ltac:(lia)) as [Hma Hma'].
  destruct (normal_of_int b db ltac:(lia) Hdb ltac:(lia)) as [Hmb Hmb'].
  unfold PyNum.mul_int, PyNum.truediv.
  rewrite FloatAxioms.mul_spec, FloatAxioms.div_spec, Prim2SF_100, !float_of_Z_pos by lia.
  rewrite (Prim2SF_of_Z a da), (Prim2SF_of_Z b db) by lia.
  set (ma := Z.to_pos (a * 2 ^ (53 - da))) in *.
  set (mb := Z.to_pos (b * 2 ^ (53 - db))) in *.
  unfold SF64mul, SF64div.
  destruct (SFdiv_normal ma mb (da - 53) (db - 53) Hma Hmb ltac:(lia) ltac:(lia))
    as (m1 & e1 & c & -> & Hm1 & Hc & -> & Hdiv).
  destruct (SFmul_normal m1 7036874417766400 (da - 53 - (db - 53) - 53 + c) (-46)
              Hm1 ltac:(cbn; lia) ltac:(lia) ltac:(lia))
    as (m2 & e2 & k & -> & Hm2 & Hk & -> & Hmul).
  exists m2, (da - 53 - (db - 53) - 53 + c + -46 + k).
  split; [reflexivity|]. split; [lia|].
  set (e2 := da - 53 - (db - 53) - 53 + c + -46 + k).
  pose proof (pow2_pos c ltac:(lia)) as Hpc.
  pose proof (pow2_pos k ltac:(lia)) as Hpk.
  pose proof (pow2_pos (53 - db) ltac:(lia)) as Hpb.
  pose proof (pow2_pos (db - da) ltac:(lia)) as Hpd.
  assert (2 ^ (53 - da) = 2 ^ (53 - db) * 2 ^ (db - da)) as Epa
    by pow2_add.
  assert (2 ^ (- e2) * (2 ^ c * 2 ^ k) = 2 ^ (db - da) * 2 ^ 99) as Epe.
  { rewrite <- !Z.pow_add_r by (unfold e2; lia). f_equal. unfold e2. lia. }
  rewrite Hma', Hmb', Epa in Hdiv.
  change (Zpos 7036874417766400) with (100 * 2 ^ 46) in Hmul.
  set (C := 2 ^ 53 - 1) in *.
  assert (0 < C) as HC by (unfold C; cbn; lia).
  set (pb := 2 ^ (53 - db)) in *. set (pd := 2 ^ (db - da)) in *.
  set (pc := 2 ^ c) in *. set (pk := 2 ^ k) in *. set (pe := 2 ^ (- e2)) in *.
  apply Z.mul_le_mono_pos_r with (p := pc * pk * pb); [nia|].
  (* LHS *)
  assert (Zpos m2 * (C * C) * b * (pc * pk * pb)
          = (Zpos m2 * pk * C) * (pc * C * (b * pb))) as -> by ring.
  assert (100 * a * 2 ^ 106 * pe * (pc * pk * pb)
          = 100 * a * 2 ^ 106 * (pe * (pc * pk)) * pb) as -> by ring.
  rewrite Epe.
  assert (Zpos m2 * pk * C * (pc * C * (b * pb))
          <= Zpos m1 * (100 * 2 ^ 46) * 2 ^ 53 * (pc * C * (b * pb))) as H1.
  { apply Z.mul_le_mono_nonneg_r; [nia | exact Hmul]. }
  assert (Zpos m1 * (100 * 2 ^ 46) * 2 ^ 53 * (pc * C * (b * pb))
          = (100 * 2 ^ 46 * 2 ^ 53) * (Zpos m1 * pc * (b * pb) * C)) as E1 by ring.
  assert ((100 * 2 ^ 46 * 2 ^ 53) * (Zpos m1 * pc * (b * pb) * C)
          <= (100 * 2 ^ 46 * 2 ^ 53) * (a * (pb * pd) * 2 ^ 106)) as H2.
  { apply Z.mul_le_mono_nonneg_l; [cbn; lia | exact Hdiv]. }
  assert ((100 * 2 ^ 46 * 2 ^ 53) * (a * (pb * pd) * 2 ^ 106)
          = 100 * a * 2 ^ 106 * (pd * 2 ^ 99) * pb) as E2.
  { change (2 ^ 99) with (2 ^ 46 * 2 ^ 53). ring. }
  lia.
Qed.

Lemma zero_times_100 (b : Z) :
  0 < b -> b < 2 ^ 53 ->
  Prim2SF (PyNum.mul_int (PyNum.truediv 0 b) 100) = S754_zero false.
Proof.
  intros Hb Hb53.
  destruct (digits_exist b Hb) as (db & Hdb0 & Hdb).
  pose proof (digits_le b db 53 ltac:(lia) Hdb Hb53) as Hdb53.
  unfold PyNum.mul_int, PyNum.truediv.
  rewrite FloatAxioms.mul_spec, FloatAxioms.div_spec, Prim2SF_100.
  rewrite (float_of_Z_pos b) by lia. rewrite (Prim2SF_of_Z b db) by lia.
  reflexivity.
Qed.

(** With [m] of [t] slots missing, [0 < m <= t < 20000 * m], the
    coverage is below 100. *)
Lemma rounded_coverage_below_100 (t m : Z) :
  0 < m <= t -> t < 20000 * m -> t < 2 ^ 32 ->
  PyNum.ltb_int
    (PyNum.round2 (PyFloat (PyNum.mul_int (PyNum.truediv (t - m) t) 100))) 100
  = true.
Proof.
  intros Hm Ht Hb. cbn [PyNum.round2 PyNum.ltb_int].
  assert (t < 2 ^ 53) as Hb53 by (change (2 ^ 32) with 4294967296 in Hb; cbn; lia).
  destruct (Z.eq_dec (t - m) 0) as [E|E].
  - rewrite E. unfold PyNum.round2_float.
    rewrite zero_times_100 by lia.
    rewrite FloatAxioms.ltb_spec, zero_times_100, Prim2SF_100 by lia. reflexivity.
  - destruct (quotient_times_100 (t - m) t ltac:(lia) ltac:(lia) Hb53)
      as (m2 & e2 & Hspec & He2 & Hbound).
    unfold PyNum.round2_float. rewrite Hspec.
    destruct (Z.leb_spec 0 e2) as [H|_]; [lia|].
    apply hundredths_lt_100.
    pose proof (margin t m Hm Ht Hb) as Hmargin.
    pose proof (pow2_pos (- e2) ltac:(lia)) as Hpe.
    set (C2 := (2 ^ 53 - 1) * (2 ^ 53 - 1)) in *.
    assert (0 < C2) as HC2 by (unfold C2; cbn; lia).
    set (pe := 2 ^ (- e2)) in *.
    assert (0 <= PyNum.round_half_even (Zpos m2 * 100) pe <= 10000 - 1) as Hn.
    { apply round_half_even_below; [exact Hpe | lia |].
      apply Z.mul_lt_mono_pos_r with (p := C2 * t); [nia|].
      assert (2 * (Zpos m2 * 100) * (C2 * t) = 200 * (Zpos m2 * C2 * t)) as -> by ring.
      assert (200 * (Zpos m2 * C2 * t) <= 200 * (100 * (t - m) * 2 ^ 106 * pe)) as H1
        by (apply Z.mul_le_mono_nonneg_l; [lia | exact Hbound]).
      assert (200 * (100 * (t - m) * 2 ^ 106 * pe)
              = (20000 * (t - m) * 2 ^ 106) * pe) as E1 by ring.
      assert ((20000 * (t - m) * 2 ^ 106) * pe < (19999 * t * C2) * pe) as H2
        by (apply Z.mul_lt_mono_pos_r; [exact Hpe | exact Hmargin]).
      assert ((2 * 10000 - 1) * pe * (C2 * t) = (19999 * t * C2) * pe) as -> by ring.
      lia. }
    lia.
Qed.

(** ** Coverage *)

Lemma missing_of_length (func_name : string) (func : FunctionDescriptor) :
  Z.of_nat (length (missing_of func_name func)) <= slots func.
Proof.
  unfold missing_of, slots. rewrite length_app.
  assert (length (flat_map (fun param =>
                    if String.eqb (kind (pd_type param)) "any"
                    then [func_name +:+ "." +:+ pd_name param] else [])
                    (fd_params func)) <= length (fd_params func))%nat as Hp.
  { induction (fd_params func) as [|p ps IH]; cbn [flat_map]; [cbn; lia|].
    rewrite length_app. destruct (String.eqb _ _); cbn; lia. }
  destruct (String.eqb _ _); cbn [length]; lia.
Qed.

Lemma missing_of_callables_length (prefix : string) (funcs : list FunctionDescriptor) :
  Z.of_nat (length (flat_map (fun func => missing_of (prefix +:+ "." +:+ fd_name func) func)
                             funcs))
  <= sumZ (map slots funcs).
Proof.
  induction funcs as [|f funcs IH]; cbn [flat_map map]; [cbn; lia|].
  rewrite length_app, sumZ_cons.
  pose proof (missing_of_length (prefix +:+ "." +:+ fd_name f) f). lia.
Qed.

Lemma missing_of_module_length (module : ModuleDescriptor) :
  Z.of_nat (length (missing_of_module module)) <= sumZ (map slots (callables_of module)).
Proof.
  unfold missing_of_module, callables_of.
  rewrite length_app, map_app, sumZ_app.
  pose proof (missing_of_callables_length (md_name module) (md_functions module)) as Hf.
  assert (Z.of_nat (length (flat_map (fun cls =>
            flat_map (fun method =>
                        missing_of ((md_name module +:+ "." +:+ cd_name cls)
                                      +:+ "." +:+ fd_name method) method)
                     (cd_methods cls)) (md_classes module)))
          <= sumZ (map slots (flat_map cd_methods (md_classes module)))) as Hc.
  { induction (md_classes module) as [|c cs IH]; cbn [flat_map]; [cbn; lia|].
    rewrite length_app, map_app, sumZ_app.
    pose proof (missing_of_callables_length (md_name module +:+ "." +:+ cd_name c)
                  (cd_methods c)). lia. }
  lia.
Qed.

(** No function or method contributes more entries than it has slots. *)
Lemma count_missing_le_total (modules : list ModuleDescriptor) :
  Z.of_nat (length (count_missing_annotations modules)) <= slot_total modules.
Proof.
  unfold count_missing_annotations, slot_total, all_callables.
  induction modules as [|m modules IH]; cbn [flat_map]; [cbn; lia|].
  rewrite length_app, map_app, sumZ_app.
  pose proof (missing_of_module_length m). fold slots in *. lia.
Qed.

(** The figure for [missing] of [total] slots. *)
Example coverage_values :
  PyNum.round2 (coverage_of 0 []) = PyInt 100
  /\ PyNum.round2 (coverage_of 3 ["a.f.x"]) = PyFloat 66.67
  /\ PyNum.round2 (coverage_of 7 ["a.f.x"; "a.f.y"; "a.g.x"]) = PyFloat 57.14
  /\ PyNum.round2 (coverage_of 32 (repeat "a.f.x" 31)) = PyFloat 3.12
  /\ PyNum.round2 (coverage_of 19999 ["a.f.x"]) = PyFloat 99.99
  /\ PyNum.round2 (coverage_of 20000 ["a.f.x"]) = PyFloat 100.
Proof. repeat split; vm_compute; reflexivity. Qed.

(** C1 as stated fails: with one slot missing out of 40000 the quotient
    is 99.9975, which rounds to 100.0, so [missingAnnotations] is not
    empty and the coverage is not below 100. *)
Lemma coverage_rounds_up_to_100 :
  match extract_package_types big_env "big" "site" None console with
  | (_, Returned (Schema schema)) =>
      missingAnnotations schema = ["big.first (return type)"]
      /\ total_items_of (modules schema) = 40000
      /\ typeAnnotationCoverage schema = PyFloat 100
      /\ PyNum.ltb_int (typeAnnotationCoverage schema) 100 = false
  | _ => False
  end.
Proof. vm_compute. repeat split. Qed.

(** C1 (amended): the coverage is [(total - missingCount) / total * 100]
    rounded to two decimals, where [total] adds, over every function and
    method of the included modules, one for the return and one per
    parameter, and [missingCount] is the length of [missingAnnotations];
    it is the integer 100 when [total] is 0; [missingCount] never exceeds
    [total]; and it is strictly below 100 whenever [missingAnnotations]
    is not empty and [total < 20000 * missingCount] (shown for totals
    below [2^32], where the integer operands are exact floats). *)
Theorem coverage_formula (modules : list ModuleDescriptor) :
  let total := slot_total modules in
  let missingCount := Z.of_nat (length (count_missing_annotations modules)) in
  total_items_of modules = total
  /\ typeAnnotationCoverage_of modules
     = PyNum.round2
         (if 0 <? total
          then PyFloat (PyNum.mul_int (PyNum.truediv (total - missingCount) total) 100)
          else PyInt 100)
  /\ (total = 0 -> typeAnnotationCoverage_of modules = PyInt 100)
  /\ 0 <= missingCount <= total
  /\ (count_missing_annotations modules <> [] ->
      total < 20000 * missingCount -> total < 2 ^ 32 ->
      PyNum.ltb_int (typeAnnotationCoverage_of modules) 100 = true).
Proof.
  cbv zeta.
  pose proof (count_missing_le_total modules) as Hle.
  pose proof (total_items_of_slot_total modules) as Htot.
  unfold typeAnnotationCoverage_of, coverage_of. rewrite Htot.
  split; [reflexivity|]. split; [reflexivity|].
  split; [intros ->; reflexivity|].
  split; [lia|].
  intros Hne Hfew Hsmall.
  assert (0 < Z.of_nat (length (count_missing_annotations modules))) as Hpos.
  { destruct (count_missing_annotations modules); [contradiction|]. cbn [length]. lia. }
  destruct (Z.ltb_spec 0 (slot_total modules)) as [_|H]; [|lia].
  apply rounded_coverage_below_100; [lia | exact Hfew | exact Hsmall].
Qed.

(** The schema of [shop]: two slots, both missing, coverage 0.0. *)
Lemma coverage_formula_witness :
  count_missing_annotations [shop] <> []
  /\ slot_total [shop] < 20000 * Z.of_nat (length (count_missing_annotations [shop]))
  /\ slot_total [shop] < 2 ^ 32
  /\ PyNum.ltb_int (typeAnnotationCoverage_of [shop]) 100 = true.
Proof.
  split; [discriminate|]. split; [reflexivity|]. split; [reflexivity|].
  refine (proj2 (proj2 (proj2 (proj2 (coverage_formula [shop])))) _ _ _).
  - discriminate.
  - reflexivity.
  - reflexivity.
Defined.
